(** * n-Queens Counter: a shallow embedding of [n_queens_counter.c]

    The C program counts the solutions of the n-queens problem by the
    backtracking search of EWD316, and the queen placements the search
    needs.  This file embeds the program function by function and proves
    the properties its specification states about it.

    Data model of the embedding (LP64):
    - [int] is a [Z] kept in the 32-bit two's complement range by
      [wrap_int]; [uint64_t] is a [Z] reduced modulo 2^64;
    - an [int *] array is a [list Z]; every read and write goes through
      [index] and [update], which refuse an index outside the array;
    - a function taking [struct chess_board *board] is a computation in
      the state monad [M chess_board]; the functions that print or leave
      the process are computations in [M io];
    - recursion depth is bounded by a fuel argument; running out of it is
      the fault [OutOfFuel], never a result. *)

From stdpp Require Import base tactics list strings pretty.
From Stdlib Require Import ZArith Lia Ascii.

Local Open Scope Z_scope.

(** ** C integers *)

Definition INT_MAX : Z := 2147483647.
Definition LONG_MAX : Z := 9223372036854775807.
Definition EXIT_SUCCESS : Z := 0.
Definition EXIT_FAILURE : Z := 1.

(** 2^31, 2^32 and 2^64 are written out so that evaluation does not
    recompute them at every operation. *)
Definition wrap_int (z : Z) : Z := (z + 2147483648) mod 4294967296 - 2147483648.
Definition wrap_uint64 (z : Z) : Z := z mod 18446744073709551616.

Definition int_add (x y : Z) : Z := wrap_int (x + y).
Definition int_sub (x y : Z) : Z := wrap_int (x - y).
Definition int_mul (x y : Z) : Z := wrap_int (x * y).

(** ** Outcomes and the state monad *)

Inductive fault := OutOfBounds | OutOfFuel.

Inductive res (A : Type) :=
| Ok (a : A)
| Exit (status : Z)
| Fault (f : fault).
Arguments Ok {A} a.
Arguments Exit {A} status.
Arguments Fault {A} f.

Definition M (S A : Type) : Type := S -> res A * S.

Definition ret {S A} (a : A) : M S A := fun s => (Ok a, s).

Definition bind {S A B} (m : M S A) (k : A -> M S B) : M S B :=
  fun s =>
    match m s with
    | (Ok a, s') => k a s'
    | (Exit st, s') => (Exit st, s')
    | (Fault f, s') => (Fault f, s')
    end.

Definition gets {S A} (f : S -> A) : M S A := fun s => (Ok (f s), s).
Definition modify {S} (f : S -> S) : M S unit := fun s => (Ok tt, f s).
Definition raise {S A} (f : fault) : M S A := fun s => (Fault f, s).
Definition exit {S A} (status : Z) : M S A := fun s => (Exit status, s).

Declare Scope cmd_scope.
Delimit Scope cmd_scope with cmd.
Notation "x <- m ;; k" := (bind m (fun x => k))
  (at level 100, m at next level, right associativity) : cmd_scope.
Notation "m ;; k" := (bind m (fun _ => k))
  (at level 100, right associativity) : cmd_scope.
Local Open Scope cmd_scope.

(** [for (int i = start; cond(i); ++i) body(i)].  [trips] bounds the number
    of iterations; a loop that wants more of them faults. *)
Fixpoint for_loop {S} (trips : nat) (cond : Z -> M S bool)
    (body : Z -> M S unit) (i : Z) : M S unit :=
  go_on <- cond i ;;
  if go_on : bool then
    match trips with
    | O => raise OutOfFuel
    | S trips' => body i ;; for_loop trips' cond body (int_add i 1)
    end
  else ret tt.

(** ** Arrays *)

Definition index (a : list Z) (i : Z) : option Z :=
  if 0 <=? i then a !! Z.to_nat i else None.

Definition update (a : list Z) (i v : Z) : option (list Z) :=
  if (0 <=? i) && (i <? Z.of_nat (length a))
  then Some (<[Z.to_nat i := v]> a) else None.

(** ** The board *)

Record chess_board := {
  n_size : Z;
  queens : list Z;
  column : list Z;
  diagonal_up : list Z;
  diagonal_down : list Z;
  col_j : Z;
  placements : Z;
  solutions : Z
}.

Definition set_queens (a : list Z) (b : chess_board) : chess_board :=
  {| n_size := n_size b; queens := a; column := column b;
     diagonal_up := diagonal_up b; diagonal_down := diagonal_down b;
     col_j := col_j b; placements := placements b; solutions := solutions b |}.

Definition set_column (a : list Z) (b : chess_board) : chess_board :=
  {| n_size := n_size b; queens := queens b; column := a;
     diagonal_up := diagonal_up b; diagonal_down := diagonal_down b;
     col_j := col_j b; placements := placements b; solutions := solutions b |}.

Definition set_diagonal_up (a : list Z) (b : chess_board) : chess_board :=
  {| n_size := n_size b; queens := queens b; column := column b;
     diagonal_up := a; diagonal_down := diagonal_down b;
     col_j := col_j b; placements := placements b; solutions := solutions b |}.

Definition set_diagonal_down (a : list Z) (b : chess_board) : chess_board :=
  {| n_size := n_size b; queens := queens b; column := column b;
     diagonal_up := diagonal_up b; diagonal_down := a;
     col_j := col_j b; placements := placements b; solutions := solutions b |}.

Definition set_col_j (v : Z) (b : chess_board) : chess_board :=
  {| n_size := n_size b; queens := queens b; column := column b;
     diagonal_up := diagonal_up b; diagonal_down := diagonal_down b;
     col_j := v; placements := placements b; solutions := solutions b |}.

Definition set_placements (v : Z) (b : chess_board) : chess_board :=
  {| n_size := n_size b; queens := queens b; column := column b;
     diagonal_up := diagonal_up b; diagonal_down := diagonal_down b;
     col_j := col_j b; placements := v; solutions := solutions b |}.

Definition set_solutions (v : Z) (b : chess_board) : chess_board :=
  {| n_size := n_size b; queens := queens b; column := column b;
     diagonal_up := diagonal_up b; diagonal_down := diagonal_down b;
     col_j := col_j b; placements := placements b; solutions := v |}.

(** [board->arr[i]] as a value, and [board->arr[i] = v]. *)
Definition load (arr : chess_board -> list Z) (i : Z) : M chess_board Z :=
  fun b =>
    match index (arr b) i with
    | Some v => (Ok v, b)
    | None => (Fault OutOfBounds, b)
    end.

Definition store (arr : chess_board -> list Z)
    (set : list Z -> chess_board -> chess_board) (i v : Z) : M chess_board unit :=
  fun b =>
    match update (arr b) i v with
    | Some a => (Ok tt, set a b)
    | None => (Fault OutOfBounds, b)
    end.

(** The two diagonal subscripts the source writes out at every use. *)
Definition up_index (n j row_i : Z) : Z := int_add (int_sub n 1) (int_sub j row_i).
Definition down_index (j row_i : Z) : Z := int_add j row_i.

Definition square_is_free (row_i : Z) : M chess_board Z :=
  c <- load column row_i ;;
  n <- gets n_size ;;
  j <- gets col_j ;;
  u <- load diagonal_up (up_index n j row_i) ;;
  j <- gets col_j ;;
  d <- load diagonal_down (down_index j row_i) ;;
  ret (Z.land (Z.land c u) d).

Definition set_queen (row_i : Z) : M chess_board unit :=
  j <- gets col_j ;;
  store queens set_queens j row_i ;;
  store column set_column row_i 0 ;;
  n <- gets n_size ;;
  j <- gets col_j ;;
  store diagonal_up set_diagonal_up (up_index n j row_i) 0 ;;
  j <- gets col_j ;;
  store diagonal_down set_diagonal_down (down_index j row_i) 0 ;;
  modify (fun b => set_col_j (int_add (col_j b) 1) b) ;;
  modify (fun b => set_placements (wrap_uint64 (placements b + 1)) b).

Definition remove_queen (row_i : Z) : M chess_board unit :=
  modify (fun b => set_col_j (int_sub (col_j b) 1) b) ;;
  j <- gets col_j ;;
  store diagonal_down set_diagonal_down (down_index j row_i) 1 ;;
  n <- gets n_size ;;
  j <- gets col_j ;;
  store diagonal_up set_diagonal_up (up_index n j row_i) 1 ;;
  store column set_column row_i 1.

(** The body of the [for] loop of [place_next_queen]; [again] is the
    recursive call. *)
Definition try_row (again : M chess_board unit) (row_i : Z) : M chess_board unit :=
  free <- square_is_free row_i ;;
  if free =? 0 then ret tt
  else
    set_queen row_i ;;
    j <- gets col_j ;;
    n <- gets n_size ;;
    (if j =? n
     then modify (fun b => set_solutions (int_add (solutions b) 1) b)
     else again) ;;
    remove_queen row_i.

Fixpoint place_next_queen (fuel : nat) : M chess_board unit :=
  match fuel with
  | O => raise OutOfFuel
  | S fuel' =>
      n <- gets n_size ;;
      for_loop (Z.to_nat n)
        (fun row_i => n <- gets n_size ;; ret (row_i <? n))
        (try_row (place_next_queen fuel')) 0
  end.

(** ** The process: output streams, allocation, [main] *)

(** What has been written to the two streams, one entry per [fprintf]. *)
Record io := { stdout : list string; stderr : list string }.

Definition fprintf_stdout (s : string) : M io unit :=
  modify (fun w => {| stdout := stdout w ++ [s]; stderr := stderr w |}).
Definition fprintf_stderr (s : string) : M io unit :=
  modify (fun w => {| stdout := stdout w; stderr := stderr w ++ [s] |}).

Definition newline : string := String (Ascii.ascii_of_nat 10) EmptyString.

Definition msg_size : string :=
  "The number of queens must be greater than 0." +:+ newline.
Definition msg_board : string :=
  "Failed to allocate memory for chess board." +:+ newline.
Definition msg_queens : string :=
  "Failed to allocate memory for chess queens." +:+ newline.
Definition msg_column : string :=
  "Failed to allocate memory for column attacks." +:+ newline.
Definition msg_diagonal_up : string :=
  "Failed to allocate memory for diagonal up attacks." +:+ newline.
Definition msg_diagonal_down : string :=
  "Failed to allocate memory for diagonal down attacks." +:+ newline.

(** The [switch] has no [break] after [case 0], so control falls through
    into [case 1]. *)
Definition allocation_error {A} (error_code : Z) : M io A :=
  match error_code with
  | 0 => fprintf_stderr msg_size ;; fprintf_stderr msg_board
  | 1 => fprintf_stderr msg_board
  | 2 => fprintf_stderr msg_queens
  | 3 => fprintf_stderr msg_column
  | 4 => fprintf_stderr msg_diagonal_up
  | 5 => fprintf_stderr msg_diagonal_down
  | _ => ret tt
  end ;;
  exit EXIT_FAILURE.

(** The allocator of the C library, as the program sees it: whether the
    [k]-th call of [malloc] succeeds, and what the cells of the block it
    returns happen to hold.  A negative [int] count converted to [size_t]
    asks for more than the address space, and is refused. *)
Record heap := { avail : nat -> bool; junk : nat -> nat -> Z }.

Definition malloc_ints (h : heap) (k : nat) (count : Z) : option (list Z) :=
  if avail h k && (0 <=? count)
  then Some (junk h k <$> seq 0 (Z.to_nat count)) else None.

(** A call [f(board)] from the process: [f] runs on the struct behind the
    pointer and leaves it updated. *)
Definition on_board {A} (m : M chess_board A) (b : chess_board) : M io chess_board :=
  fun w =>
    match m b with
    | (Ok _, b') => (Ok b', w)
    | (Exit st, _) => (Exit st, w)
    | (Fault f, _) => (Fault f, w)
    end.

Definition initialize_board (h : heap) (n_queens : Z) : M io chess_board :=
  (if n_queens <? 1 then allocation_error 0 else ret tt) ;;
  (if avail h 0 then ret tt else allocation_error 1) ;;
  q <- match malloc_ints h 1 n_queens with
       | Some a => ret a | None => allocation_error 2 end ;;
  c <- match malloc_ints h 2 n_queens with
       | Some a => ret a | None => allocation_error 3 end ;;
  u <- match malloc_ints h 3 (int_sub (int_mul 2 n_queens) 1) with
       | Some a => ret a | None => allocation_error 4 end ;;
  d <- match malloc_ints h 4 (int_sub (int_mul 2 n_queens) 1) with
       | Some a => ret a | None => allocation_error 5 end ;;
  on_board
    (for_loop (Z.to_nat n_queens) (fun i => ret (i <? n_queens))
       (fun i =>
          store queens set_queens i 0 ;;
          store column set_column i 1 ;;
          store diagonal_up set_diagonal_up i 1 ;;
          store diagonal_down set_diagonal_down i 1) 0 ;;
     for_loop (Z.to_nat n_queens)
       (fun i => ret (i <? int_sub (int_mul 2 n_queens) 1))
       (fun i =>
          store diagonal_up set_diagonal_up i 1 ;;
          store diagonal_down set_diagonal_down i 1) n_queens)
    {| n_size := n_queens; queens := q; column := c;
       diagonal_up := u; diagonal_down := d;
       col_j := 0; placements := 0; solutions := 0 |}.

(** [free] returns the five blocks; nothing of the model depends on it. *)
Definition smash_board (board : chess_board) : M io unit := ret tt.

Definition print_counts (board : chess_board) : M io unit :=
  fprintf_stdout
    ("The " +:+ pretty (n_size board) +:+ "-Queens problem " +:+
     "required " +:+ pretty (placements board) +:+ " queen placements " +:+
     "to find all " +:+ pretty (solutions board) +:+ " solutions" +:+ newline).

(** [atoi] of the C library: white space, an optional sign, then decimal
    digits up to the first other character; no digits give 0.  The value
    is that of [strtol], which saturates at the bounds of [long],
    converted to [int]. *)
Definition is_space (c : ascii) : bool :=
  let n := Ascii.nat_of_ascii c in
  ((9 <=? n) && (n <=? 13))%nat || (n =? 32)%nat.

Definition digit_of (c : ascii) : option Z :=
  let n := Ascii.nat_of_ascii c in
  if ((48 <=? n) && (n <=? 57))%nat then Some (Z.of_nat n - 48) else None.

Fixpoint skip_space (s : string) : string :=
  match s with
  | String c s' => if is_space c then skip_space s' else s
  | EmptyString => s
  end.

Fixpoint digits (acc : Z) (s : string) : Z :=
  match s with
  | String c s' =>
      match digit_of c with
      | Some d => digits (10 * acc + d) s'
      | None => acc
      end
  | EmptyString => acc
  end.

Definition strtol (s : string) : Z :=
  let v :=
    match skip_space s with
    | String "-" s' => - digits 0 s'
    | String "+" s' => digits 0 s'
    | s' => digits 0 s'
    end in
  Z.max (- LONG_MAX - 1) (Z.min LONG_MAX v).

Definition atoi (s : string) : Z := wrap_int (strtol s).

Definition main (h : heap) (fuel : nat) (argv : list string) : M io Z :=
  board <- (if Z.of_nat (length argv) =? 1
            then initialize_board h 4
            else match argv !! 1%nat with
                 | Some arg => initialize_board h (atoi arg)
                 | None => raise OutOfBounds
                 end) ;;
  board <- on_board (place_next_queen fuel) board ;;
  print_counts board ;;
  smash_board board ;;
  ret EXIT_SUCCESS.

(** The counts a run for [size] reports: what [main] computes between
    reading its argument and printing. *)
Definition solve (h : heap) (fuel : nat) (size : Z) : M io (Z * Z) :=
  board <- initialize_board h size ;;
  board <- on_board (place_next_queen fuel) board ;;
  smash_board board ;;
  ret (placements board, solutions board).

(** ** Well-formed boards *)

(** The largest size for which [2 * n_queens - 1], computed in [int], is
    the number of cells the diagonals need: 2^30. *)
Definition MAX_SIZE : Z := 1073741824.

Definition flag (v : Z) : Prop := v = 0 \/ v = 1.

(** The shape [initialize_board] gives a board and the search keeps: the
    four arrays have the lengths allocated for [n_size], and the conflict
    arrays hold only 0 (occupied) and 1 (free). *)
Record board_ok (b : chess_board) : Prop := {
  ok_size : 1 <= n_size b <= MAX_SIZE;
  ok_queens : Z.of_nat (length (queens b)) = n_size b;
  ok_column : Z.of_nat (length (column b)) = n_size b;
  ok_up : Z.of_nat (length (diagonal_up b)) = 2 * n_size b - 1;
  ok_down : Z.of_nat (length (diagonal_down b)) = 2 * n_size b - 1;
  ok_column_flags : Forall flag (column b);
  ok_up_flags : Forall flag (diagonal_up b);
  ok_down_flags : Forall flag (diagonal_down b)
}.

(** Two boards that differ at most in the counters and in the rows
    recorded in [queens]. *)
Definition same_position (b b' : chess_board) : Prop :=
  n_size b' = n_size b /\ col_j b' = col_j b /\
  column b' = column b /\ diagonal_up b' = diagonal_up b /\
  diagonal_down b' = diagonal_down b /\
  length (queens b') = length (queens b).

(** The board [initialize_board] returns. *)
Definition fresh (n : Z) : chess_board :=
  {| n_size := n;
     queens := replicate (Z.to_nat n) 0;
     column := replicate (Z.to_nat n) 1;
     diagonal_up := replicate (Z.to_nat (2 * n - 1)) 1;
     diagonal_down := replicate (Z.to_nat (2 * n - 1)) 1;
     col_j := 0; placements := 0; solutions := 0 |}.

(** The board after [set_queen row_i], and after [remove_queen row_i],
    when every subscript is inside its array. *)
Definition placed (row_i : Z) (b : chess_board) : chess_board :=
  {| n_size := n_size b;
     queens := <[Z.to_nat (col_j b) := row_i]> (queens b);
     column := <[Z.to_nat row_i := 0]> (column b);
     diagonal_up :=
       <[Z.to_nat (n_size b - 1 + (col_j b - row_i)) := 0]> (diagonal_up b);
     diagonal_down := <[Z.to_nat (col_j b + row_i) := 0]> (diagonal_down b);
     col_j := col_j b + 1;
     placements := wrap_uint64 (placements b + 1);
     solutions := solutions b |}.

Definition removed (row_i : Z) (b : chess_board) : chess_board :=
  {| n_size := n_size b;
     queens := queens b;
     column := <[Z.to_nat row_i := 1]> (column b);
     diagonal_up :=
       <[Z.to_nat (n_size b - 1 + (col_j b - 1 - row_i)) := 1]> (diagonal_up b);
     diagonal_down := <[Z.to_nat (col_j b - 1 + row_i) := 1]> (diagonal_down b);
     col_j := col_j b - 1;
     placements := placements b;
     solutions := solutions b |}.

(** An allocated array whose first [i] cells have been set to [v], and the
    board under construction when the first [i] cells of [queens] and
    [column] and the first [k] cells of the diagonals are set. *)
Definition fill (i : nat) (v : Z) (a : list Z) : list Z :=
  replicate i v ++ drop i a.

Definition filling (n : Z) (q c u d : list Z) (i k : nat) : chess_board :=
  {| n_size := n;
     queens := fill i 0 q; column := fill i 1 c;
     diagonal_up := fill k 1 u; diagonal_down := fill k 1 d;
     col_j := 0; placements := 0; solutions := 0 |}.

(** Every [malloc] of the run succeeds. *)
Definition allocates (h : heap) : Prop := forall k, (k < 5)%nat -> avail h k = true.

(** The search on a new board of size [n], with the fuel that suffices,
    and the counters it leaves. *)
Definition search_counts (n : Z) : res unit * Z * Z :=
  let out := place_next_queen (Z.to_nat n) (fresh n) in
  (out.1, placements out.2, solutions out.2).

(** Size, placements and solutions, as the program computes them. *)
Definition counts_table : list (Z * (Z * Z)) :=
  [(1, (1, 1)); (2, (2, 0)); (3, (5, 0)); (4, (16, 2));
   (5, (53, 10)); (6, (152, 4)); (7, (551, 40)); (8, (2056, 92))].

(** The reference table of the specification: size and solution count. *)
Definition reference_table : list (Z * Z) :=
  [(1, 1); (2, 0); (3, 0); (4, 2); (5, 10); (6, 4); (7, 40); (8, 92)].

(** A process that has written nothing yet, and an allocator that grants
    every request and hands out blocks with arbitrary contents. *)
Definition io0 : io := {| stdout := []; stderr := [] |}.
Definition sample_heap : heap :=
  {| avail := fun _ => true; junk := fun k i => Z.of_nat (k + 7 * i) - 3 |}.

(** The line the specification expects for size 4, and the line the
    program prints. *)
Definition line_38 : string :=
  "The 4-Queens problem required 38 queen placements to find all 2 solutions"
  +:+ newline.
Definition line_16 : string :=
  "The 4-Queens problem required 16 queen placements to find all 2 solutions"
  +:+ newline.

(** The number of rows that hold a queen, read off the column array. *)
Definition occupied (a : list Z) : nat := length (filter (fun v => v = 0) a).

(** The board states of the data model: a well-formed board whose current
    column equals the number of queens on the board. *)
Record board_inv (b : chess_board) : Prop := {
  inv_ok : board_ok b;
  inv_count : Z.of_nat (occupied (column b)) = col_j b
}.

(** What a search started on [b] may end in: it returns, with the position
    of [b] restored, or it ran out of fuel, which [enough] fuel excludes. *)
Definition search_post (enough : Prop) (b : chess_board)
    (out : res unit * chess_board) : Prop :=
  (exists b', out = (Ok tt, b') /\ same_position b b') \/
  (out.1 = Fault OutOfFuel /\ ~ enough).

(** ** The queens on the board *)

(** The rows of the queens in the columns left of the current one. *)
Definition placed_queens (b : chess_board) : list Z :=
  take (Z.to_nat (col_j b)) (queens b).

(** No two queens, one per column from column 0 on, share a row or a
    diagonal. *)
Definition non_attacking (qs : list Z) : Prop :=
  forall c1 c2 r1 r2, (c1 < c2)%nat ->
    qs !! c1 = Some r1 -> qs !! c2 = Some r2 ->
    r1 <> r2 /\
    r2 - r1 <> Z.of_nat c2 - Z.of_nat c1 /\
    r1 - r2 <> Z.of_nat c2 - Z.of_nat c1.

(** Column minus row, and column plus row, of every queen. *)
Definition diffs (qs : list Z) : list Z := imap (fun c r => Z.of_nat c - r) qs.
Definition sums (qs : list Z) : list Z := imap (fun c r => Z.of_nat c + r) qs.

(** A queen in the next column at [row] is attacked by none of [qs]. *)
Definition safe (qs : list Z) (row : Z) : bool :=
  bool_decide (row ∉ qs) &&
  bool_decide (Z.of_nat (length qs) - row ∉ diffs qs) &&
  bool_decide (Z.of_nat (length qs) + row ∉ sums qs).

(** The queens [ext], put one by one in the columns after those of [qs],
    are each safe from all queens to their left. *)
Fixpoint extends (qs ext : list Z) : bool :=
  match ext with
  | [] => true
  | r :: ext' => safe qs r && extends (qs ++ [r]) ext'
  end.

(** A conflict array of [len] cells in which the cells [occ] are taken. *)
Definition flags_of (occ : list Z) (len : Z) : list Z :=
  (fun i => if bool_decide (i ∈ occ) then 0 else 1) <$> seqZ 0 len.

(** The conflict arrays say what the queens on the board attack. *)
Record consistent (b : chess_board) : Prop := {
  cons_ok : board_ok b;
  cons_col : 0 <= col_j b <= n_size b;
  cons_safe : non_attacking (placed_queens b);
  cons_column : column b = flags_of (placed_queens b) (n_size b);
  cons_up :
    diagonal_up b =
      flags_of ((fun x => n_size b - 1 + x) <$> diffs (placed_queens b))
        (2 * n_size b - 1);
  cons_down :
    diagonal_down b = flags_of (sums (placed_queens b)) (2 * n_size b - 1)
}.

(** All ways to put [m] queens in [m] columns of a board with [n] rows. *)
Fixpoint boards (n : Z) (m : nat) : list (list Z) :=
  match m with
  | O => [[]]
  | S m' => r ← seqZ 0 n; (fun ext => r :: ext) <$> boards n m'
  end.

(** The number of ways to extend [qs] by [m] more columns, and by 1 to [m]
    more columns. *)
Definition completions (n : Z) (m : nat) (qs : list Z) : nat :=
  length (filter (fun ext => extends qs ext) (boards n m)).

Fixpoint partials (n : Z) (m : nat) (qs : list Z) : nat :=
  match m with
  | O => O
  | S m' => (partials n m' qs + completions n (S m') qs)%nat
  end.

(** A well-typed pair of counters: [placements] is a [uint64_t] and
    [solutions] an [int]. *)
Definition counters_ok (b : chess_board) : Prop :=
  0 <= placements b < 18446744073709551616 /\
  -2147483648 <= solutions b <= INT_MAX.

(** [b'] is [b] after a search that placed [p] queens and found [s]
    solutions: same position, same queens on the board, counters
    advanced. *)
Definition counted (b b' : chess_board) (p s : nat) : Prop :=
  same_position b b' /\
  placed_queens b' = placed_queens b /\
  placements b' = wrap_uint64 (placements b + Z.of_nat p) /\
  solutions b' = wrap_int (solutions b + Z.of_nat s).

(** The message [initialize_board] passes to [allocation_error] when its
    [k]-th allocation is refused. *)
Definition allocation_message (k : nat) : string :=
  nth k [msg_board; msg_queens; msg_column; msg_diagonal_up; msg_diagonal_down]
    EmptyString.

(** The size [main] passes to [initialize_board]: 4 without an argument,
    [atoi] of the first argument otherwise. *)
Definition size_argument (argv : list string) : option Z :=
  if Z.of_nat (length argv) =? 1 then Some 4 else atoi <$> argv !! 1%nat.

(** The line [print_counts] writes for the given size and counters. *)
Definition result_line (n p s : Z) : string :=
  "The " +:+ pretty n +:+ "-Queens problem " +:+
  "required " +:+ pretty p +:+ " queen placements " +:+
  "to find all " +:+ pretty s +:+ " solutions" +:+ newline.

(** * Proofs *)

(** ** Integers *)

Lemma wrap_int_small z : -2147483648 <= z <= INT_MAX -> wrap_int z = z.
Proof.
  unfold wrap_int, INT_MAX. intros H.
  rewrite Z.mod_small by lia. lia.
Qed.

Lemma int_add_small x y :
  -2147483648 <= x + y <= INT_MAX -> int_add x y = x + y.
Proof. apply wrap_int_small. Qed.

Lemma int_sub_small x y :
  -2147483648 <= x - y <= INT_MAX -> int_sub x y = x - y.
Proof. apply wrap_int_small. Qed.

Lemma up_index_small n j row_i :
  1 <= n <= MAX_SIZE -> 0 <= j <= n -> 0 <= row_i < n ->
  up_index n j row_i = n - 1 + (j - row_i).
Proof.
  unfold up_index, MAX_SIZE. intros Hn Hj Hr.
  rewrite !int_sub_small, int_add_small; unfold INT_MAX; lia.
Qed.

Lemma down_index_small n j row_i :
  1 <= n <= MAX_SIZE -> 0 <= j <= n -> 0 <= row_i < n ->
  down_index j row_i = j + row_i.
Proof.
  unfold down_index, MAX_SIZE. intros Hn Hj Hr.
  rewrite int_add_small; unfold INT_MAX; lia.
Qed.

Lemma land_flags c u d :
  flag c -> flag u -> flag d ->
  Z.land (Z.land c u) d <> 0 <-> c = 1 /\ u = 1 /\ d = 1.
Proof.
  intros [-> | ->] [-> | ->] [-> | ->]; simpl; split; intros H;
    try done; try (destruct H as (? & ? & ?); done).
Qed.

(** ** Arrays *)

Lemma index_Some a i v :
  index a i = Some v <-> 0 <= i /\ a !! Z.to_nat i = Some v.
Proof.
  unfold index. destruct (Z.leb_spec 0 i); split; try done; intuition lia.
Qed.

Lemma index_in_range a i :
  0 <= i < Z.of_nat (length a) -> exists v, index a i = Some v /\ a !! Z.to_nat i = Some v.
Proof.
  intros H. destruct (lookup_lt_is_Some_2 a (Z.to_nat i)) as [v Hv]; [lia|].
  exists v. split; [|done]. apply index_Some. split; [lia|done].
Qed.

Lemma index_None a i :
  index a i = None <-> ~ (0 <= i < Z.of_nat (length a)).
Proof.
  unfold index. destruct (Z.leb_spec 0 i).
  - rewrite lookup_ge_None. lia.
  - split; [lia|done].
Qed.

Lemma update_in_range a i v :
  0 <= i < Z.of_nat (length a) -> update a i v = Some (<[Z.to_nat i := v]> a).
Proof.
  intros H. unfold update.
  destruct (Z.leb_spec 0 i); [|lia].
  destruct (Z.ltb_spec i (Z.of_nat (length a))); [done|lia].
Qed.

(** ** The three board operations *)

#[local] Arguments wrap_int : simpl never.
#[local] Arguments wrap_uint64 : simpl never.
#[local] Arguments int_add : simpl never.
#[local] Arguments int_sub : simpl never.
#[local] Arguments int_mul : simpl never.
#[local] Arguments up_index : simpl never.
#[local] Arguments down_index : simpl never.
#[local] Arguments index : simpl never.
#[local] Arguments update : simpl never.

Ltac run := unfold bind, gets, modify, ret, load, store; simpl.

(** Closes [Forall flag l] for a list of literal cells. *)
Ltac flags :=
  repeat (constructor; [first [by left | by right] |]); constructor.

Lemma square_is_free_run b row_i :
  board_ok b -> 0 <= col_j b < n_size b -> 0 <= row_i < n_size b ->
  exists c u d,
    index (column b) row_i = Some c /\
    index (diagonal_up b) (n_size b - 1 + (col_j b - row_i)) = Some u /\
    index (diagonal_down b) (col_j b + row_i) = Some d /\
    flag c /\ flag u /\ flag d /\
    square_is_free row_i b = (Ok (Z.land (Z.land c u) d), b).
Proof.
  intros Hok Hj Hr. destruct Hok as [Hn Lq Lc Lu Ld Fc Fu Fd].
  destruct (index_in_range (column b) row_i) as (c & Hc & Hc'); [lia|].
  destruct (index_in_range (diagonal_up b) (n_size b - 1 + (col_j b - row_i)))
    as (u & Hu & Hu'); [lia|].
  destruct (index_in_range (diagonal_down b) (col_j b + row_i))
    as (d & Hd & Hd'); [lia|].
  exists c, u, d. repeat split; try done.
  - exact (Forall_lookup_1 _ _ _ _ Fc Hc').
  - exact (Forall_lookup_1 _ _ _ _ Fu Hu').
  - exact (Forall_lookup_1 _ _ _ _ Fd Hd').
  - unfold square_is_free. run.
    rewrite Hc. simpl. rewrite (up_index_small (n_size b)), Hu by lia. simpl.
    by rewrite (down_index_small (n_size b)), Hd by lia.
Qed.

Lemma set_queen_run b row_i :
  board_ok b -> 0 <= col_j b < n_size b -> 0 <= row_i < n_size b ->
  set_queen row_i b = (Ok tt, placed row_i b).
Proof.
  intros Hok Hj Hr. destruct Hok.
  unfold set_queen. run.
  rewrite update_in_range by lia. simpl.
  rewrite update_in_range by lia. simpl.
  rewrite (up_index_small (n_size b)), update_in_range by lia. simpl.
  rewrite (down_index_small (n_size b)), update_in_range by lia. simpl.
  rewrite int_add_small by (unfold MAX_SIZE, INT_MAX in *; lia).
  done.
Qed.

Lemma remove_queen_run b row_i :
  board_ok b -> 1 <= col_j b <= n_size b -> 0 <= row_i < n_size b ->
  remove_queen row_i b = (Ok tt, removed row_i b).
Proof.
  intros Hok Hj Hr. destruct Hok.
  unfold remove_queen. run.
  rewrite int_sub_small by (unfold MAX_SIZE, INT_MAX in *; lia).
  rewrite (down_index_small (n_size b)), update_in_range by lia. simpl.
  rewrite (up_index_small (n_size b)), update_in_range by lia. simpl.
  rewrite update_in_range by lia. done.
Qed.

(** ** Running sequences *)

Lemma bind_ok {S A B} (m : M S A) (k : A -> M S B) s a s' :
  m s = (Ok a, s') -> bind m k s = k a s'.
Proof. unfold bind. by intros ->. Qed.

Lemma bind_fault_fst {S A B} (m : M S A) (k : A -> M S B) s f :
  (m s).1 = Fault f -> (bind m k s).1 = Fault f.
Proof. unfold bind. destruct (m s) as [[]]; simpl; congruence. Qed.

Lemma bind_exit {S A B} (m : M S A) (k : A -> M S B) s st s' :
  m s = (Exit st, s') -> bind m k s = (Exit st, s').
Proof. unfold bind. by intros ->. Qed.

Lemma bind_inv {S A B} (m : M S A) (k : A -> M S B) s b s2 :
  bind m k s = (Ok b, s2) ->
  exists a s1, m s = (Ok a, s1) /\ k a s1 = (Ok b, s2).
Proof.
  unfold bind. destruct (m s) as [[a | st | f] s1]; [eauto | done | done].
Qed.

(** ** Positions *)

Lemma same_position_refl b : same_position b b.
Proof. by repeat split. Qed.

Lemma same_position_trans b1 b2 b3 :
  same_position b1 b2 -> same_position b2 b3 -> same_position b1 b3.
Proof.
  intros (? & ? & ? & ? & ? & ?) (? & ? & ? & ? & ? & ?).
  repeat split; congruence.
Qed.

Lemma same_position_ok b b' : board_ok b -> same_position b b' -> board_ok b'.
Proof.
  intros [] (En & Ej & Ec & Eu & Ed & Eq).
  split; rewrite ?En, ?Ec, ?Eu, ?Ed, ?Eq; done.
Qed.

Lemma same_position_solutions b v : same_position b (set_solutions v b).
Proof. by repeat split. Qed.

Lemma placed_ok b row_i : board_ok b -> board_ok (placed row_i b).
Proof.
  intros []. split; simpl; rewrite ?length_insert; try done;
    apply Forall_insert; try done; by left.
Qed.

(** Removing the queen again, after any search that kept the position,
    gives back the position from before it was placed. *)
Lemma removed_placed b row_i b2 :
  index (column b) row_i = Some 1 ->
  index (diagonal_up b) (n_size b - 1 + (col_j b - row_i)) = Some 1 ->
  index (diagonal_down b) (col_j b + row_i) = Some 1 ->
  same_position (placed row_i b) b2 ->
  same_position b (removed row_i b2).
Proof.
  intros [_ Hc]%index_Some [_ Hu]%index_Some [_ Hd]%index_Some
    (En & Ej & Ec & Eu & Ed & Eq).
  simpl in *. repeat split; simpl.
  - done.
  - lia.
  - rewrite Ec, list_insert_insert_eq. by apply list_insert_id.
  - rewrite Eu, En, Ej.
    replace (col_j b + 1 - 1 - row_i) with (col_j b - row_i) by lia.
    rewrite list_insert_insert_eq. by apply list_insert_id.
  - rewrite Ed, Ej.
    replace (col_j b + 1 - 1 + row_i) with (col_j b + row_i) by lia.
    rewrite list_insert_insert_eq. by apply list_insert_id.
  - by rewrite Eq, length_insert.
Qed.

(** ** The search *)

Lemma search_post_impl (P Q : Prop) b out :
  (Q -> P) -> search_post P b out -> search_post Q b out.
Proof. intros HPQ [H | [H HP]]; [by left | right; split; tauto]. Qed.

Lemma try_row_post (P : Prop) again b row_i :
  board_ok b -> 0 <= col_j b < n_size b -> 0 <= row_i < n_size b ->
  (forall b1, board_ok b1 -> n_size b1 = n_size b ->
     col_j b1 = col_j b + 1 -> col_j b1 < n_size b ->
     search_post P b1 (again b1)) ->
  search_post P b (try_row again row_i b).
Proof.
  intros Hok Hj Hr Hagain.
  destruct (square_is_free_run b row_i Hok Hj Hr)
    as (c & u & d & Hc & Hu & Hd & Fc & Fu & Fd & Hfree).
  unfold try_row. rewrite (bind_ok _ _ _ _ _ Hfree).
  destruct (Z.eqb_spec (Z.land (Z.land c u) d) 0) as [E | E].
  { left. exists b. split; [done | apply same_position_refl]. }
  apply land_flags in E as (-> & -> & ->); try done.
  rewrite (bind_ok _ _ _ _ _ (set_queen_run b row_i Hok Hj Hr)).
  pose proof (placed_ok b row_i Hok) as Hok1.
  unfold bind at 1, gets at 1. unfold bind at 1, gets at 1.
  change (col_j (placed row_i b)) with (col_j b + 1).
  change (n_size (placed row_i b)) with (n_size b).
  destruct (Z.eqb_spec (col_j b + 1) (n_size b)) as [Efull | Efull].
  - unfold bind at 1, modify at 1.
    set (b2 := set_solutions _ _).
    assert (Hpos : same_position (placed row_i b) b2)
      by apply same_position_solutions.
    rewrite remove_queen_run;
      [| by eapply same_position_ok | simpl; lia | simpl; lia].
    left. eexists. split; [done|]. by apply removed_placed.
  - destruct (Hagain (placed row_i b)) as [(b2 & Hrun & Hpos) | [Hrun HP]];
      simpl; try done; try lia.
    + rewrite (bind_ok _ _ _ _ _ Hrun).
      pose proof Hpos as (En & Ej & _).
      rewrite remove_queen_run;
        [| by eapply same_position_ok
         | rewrite En, Ej; simpl; lia | rewrite En; simpl; lia].
      left. eexists. split; [done|]. by apply removed_placed.
    + right. split; [|done]. by apply bind_fault_fst.
Qed.

Lemma rows_post (P : Prop) again b :
  board_ok b -> 0 <= col_j b < n_size b ->
  (forall b1, board_ok b1 -> n_size b1 = n_size b ->
     col_j b1 = col_j b + 1 -> col_j b1 < n_size b ->
     search_post P b1 (again b1)) ->
  forall trips row_i b1,
    same_position b b1 -> 0 <= row_i <= n_size b ->
    n_size b - row_i <= Z.of_nat trips ->
    search_post P b
      (for_loop trips (fun row_i => n <- gets n_size ;; ret (row_i <? n))
         (try_row again) row_i b1).
Proof.
  intros Hok Hj Hagain trips.
  induction trips as [| trips IH]; intros row_i b1 Hpos Hr Htrips.
  - assert (row_i = n_size b) as -> by lia.
    destruct Hpos as (En & Hrest). simpl. run. rewrite En, Z.ltb_irrefl.
    left. exists b1. split; [done | by split].
  - pose proof Hpos as (En & Ej & Hrest).
    simpl. unfold bind at 1. unfold bind at 1, gets at 1, ret at 1.
    rewrite En.
    destruct (Z.ltb_spec row_i (n_size b)) as [Hlt | Hge].
    + assert (Hok1 : board_ok b1) by by eapply same_position_ok.
      destruct (try_row_post P again b1 row_i) as [(b2 & Hrun & Hpos2) | [Hrun HP]];
        try done; try lia.
      { intros b2 ? ? ? ?. apply Hagain; try done; lia. }
      * rewrite (bind_ok _ _ _ _ _ Hrun).
        rewrite int_add_small
          by (destruct Hok; unfold MAX_SIZE, INT_MAX in *; lia).
        apply IH; [by eapply same_position_trans | lia | lia].
      * right. split; [|done]. by apply bind_fault_fst.
    + left. exists b1. split; [done | by split].
Qed.

Lemma place_next_queen_post fuel :
  forall b, board_ok b -> 0 <= col_j b < n_size b ->
    search_post (n_size b - col_j b <= Z.of_nat fuel) b (place_next_queen fuel b).
Proof.
  induction fuel as [| fuel IH]; intros b Hok Hj.
  - right. split; [done | simpl; lia].
  - simpl. unfold bind at 1, gets at 1.
    apply (rows_post _ _ b Hok Hj).
    + intros b1 Hok1 En Ej Hlt.
      eapply search_post_impl; [| apply IH; [done | lia]]. lia.
    + apply same_position_refl.
    + lia.
    + lia.
Qed.

(** ** Construction *)

Lemma double_minus_one n :
  1 <= n <= MAX_SIZE -> int_sub (int_mul 2 n) 1 = 2 * n - 1.
Proof.
  unfold MAX_SIZE. intros H.
  destruct (decide (n = 1073741824)) as [-> | Hne]; [done|].
  unfold int_mul. rewrite wrap_int_small by (unfold INT_MAX; lia).
  apply int_sub_small. unfold INT_MAX. lia.
Qed.

Lemma double_minus_one_negative n :
  MAX_SIZE < n <= INT_MAX -> int_sub (int_mul 2 n) 1 < 0.
Proof.
  unfold MAX_SIZE, INT_MAX. intros H.
  assert (int_mul 2 n = 2 * n - 4294967296) as ->.
  { unfold int_mul, wrap_int.
    replace (2 * n + 2147483648)
      with (2 * n - 2147483648 + 1 * 4294967296) by lia.
    rewrite Z_mod_plus_full, Z.mod_small by lia. lia. }
  rewrite int_sub_small by (unfold INT_MAX; lia). lia.
Qed.

Lemma length_fill i v a : (i <= length a)%nat -> length (fill i v a) = length a.
Proof.
  intros H. unfold fill. rewrite length_app, length_replicate, length_drop. lia.
Qed.

Lemma insert_fill i v a :
  (i < length a)%nat -> <[i := v]> (fill i v a) = fill (S i) v a.
Proof.
  intros H. unfold fill.
  destruct (lookup_lt_is_Some_2 a i H) as [x Hx].
  rewrite (drop_S a x i Hx).
  rewrite insert_app_r_alt by (rewrite length_replicate; lia).
  rewrite length_replicate, Nat.sub_diag, replicate_S_end, <- app_assoc.
  done.
Qed.

Lemma fill_all i v a : length a = i -> fill i v a = replicate i v.
Proof. intros <-. unfold fill. by rewrite drop_all, app_nil_r. Qed.

Lemma store_fill a i v :
  (i < length a)%nat ->
  update (fill i v a) (Z.of_nat i) v = Some (fill (S i) v a).
Proof.
  intros H. rewrite update_in_range by (rewrite length_fill; lia).
  by rewrite Nat2Z.id, insert_fill.
Qed.

Section Construction.
Variables (n : Z) (q c u d : list Z).
Hypothesis Hn : 1 <= n <= MAX_SIZE.
Hypothesis Hq : length q = Z.to_nat n.
Hypothesis Hc : length c = Z.to_nat n.
Hypothesis Hu : length u = Z.to_nat (2 * n - 1).
Hypothesis Hd : length d = Z.to_nat (2 * n - 1).

(** The first loop of [initialize_board], from any of its iterations. *)
Lemma first_loop trips i :
  (i <= Z.to_nat n)%nat -> (Z.to_nat n - i <= trips)%nat ->
  for_loop trips (fun i => ret (i <? n))
    (fun i =>
       store queens set_queens i 0 ;;
       store column set_column i 1 ;;
       store diagonal_up set_diagonal_up i 1 ;;
       store diagonal_down set_diagonal_down i 1) (Z.of_nat i)
    (filling n q c u d i i)
  = (Ok tt, filling n q c u d (Z.to_nat n) (Z.to_nat n)).
Proof using Hn Hq Hc Hu Hd.
  revert i. induction trips as [| trips IH]; intros i Hi Htrips.
  - assert (i = Z.to_nat n) as -> by lia.
    simpl. run. rewrite Z2Nat.id, Z.ltb_irrefl by lia. done.
  - simpl. unfold bind at 1, ret at 1.
    destruct (Z.ltb_spec (Z.of_nat i) n) as [Hlt | Hge].
    + run. unfold filling at 1. simpl.
      rewrite (store_fill q) by lia. simpl.
      rewrite (store_fill c) by lia. simpl.
      rewrite (store_fill u) by lia. simpl.
      rewrite (store_fill d) by lia. simpl.
      rewrite int_add_small by (unfold MAX_SIZE, INT_MAX in *; lia).
      replace (Z.of_nat i + 1) with (Z.of_nat (S i)) by lia.
      apply (IH (S i)); lia.
    + assert (i = Z.to_nat n) as -> by lia. done.
Qed.

(** The second loop, which sets the remaining cells of the diagonals. *)
Lemma second_loop trips k :
  (Z.to_nat n <= k <= Z.to_nat (2 * n - 1))%nat ->
  (Z.to_nat (2 * n - 1) - k <= trips)%nat ->
  for_loop trips (fun i => ret (i <? int_sub (int_mul 2 n) 1))
    (fun i =>
       store diagonal_up set_diagonal_up i 1 ;;
       store diagonal_down set_diagonal_down i 1) (Z.of_nat k)
    (filling n q c u d (Z.to_nat n) k)
  = (Ok tt, filling n q c u d (Z.to_nat n) (Z.to_nat (2 * n - 1))).
Proof using Hn Hq Hc Hu Hd.
  rewrite double_minus_one by done.
  revert k. induction trips as [| trips IH]; intros k Hk Htrips.
  - assert (k = Z.to_nat (2 * n - 1)) as -> by lia.
    simpl. run. rewrite Z2Nat.id, Z.ltb_irrefl by lia. done.
  - simpl. unfold bind at 1, ret at 1.
    destruct (Z.ltb_spec (Z.of_nat k) (2 * n - 1)) as [Hlt | Hge].
    + run. unfold filling at 1. simpl.
      rewrite (store_fill u) by lia. simpl.
      rewrite (store_fill d) by lia. simpl.
      rewrite int_add_small by (unfold MAX_SIZE, INT_MAX in *; lia).
      replace (Z.of_nat k + 1) with (Z.of_nat (S k)) by lia.
      apply (IH (S k)); lia.
    + assert (k = Z.to_nat (2 * n - 1)) as -> by lia. done.
Qed.

Lemma both_loops :
  (for_loop (Z.to_nat n) (fun i => ret (i <? n))
     (fun i =>
        store queens set_queens i 0 ;;
        store column set_column i 1 ;;
        store diagonal_up set_diagonal_up i 1 ;;
        store diagonal_down set_diagonal_down i 1) 0 ;;
   for_loop (Z.to_nat n)
     (fun i => ret (i <? int_sub (int_mul 2 n) 1))
     (fun i =>
        store diagonal_up set_diagonal_up i 1 ;;
        store diagonal_down set_diagonal_down i 1) n)
    {| n_size := n; queens := q; column := c;
       diagonal_up := u; diagonal_down := d;
       col_j := 0; placements := 0; solutions := 0 |}
  = (Ok tt, filling n q c u d (Z.to_nat n) (Z.to_nat (2 * n - 1))).
Proof using Hn Hq Hc Hu Hd.
  change {| n_size := n; queens := q; column := c;
            diagonal_up := u; diagonal_down := d;
            col_j := 0; placements := 0; solutions := 0 |}
    with (filling n q c u d 0 0).
  erewrite bind_ok; [| apply (first_loop (Z.to_nat n) 0%nat); lia].
  pose proof (second_loop (Z.to_nat n) (Z.to_nat n)) as Hsecond.
  rewrite Z2Nat.id in Hsecond by lia. apply Hsecond; lia.
Qed.

Lemma filling_done :
  filling n q c u d (Z.to_nat n) (Z.to_nat (2 * n - 1)) = fresh n.
Proof using Hq Hc Hu Hd.
  unfold filling, fresh. by rewrite !fill_all.
Qed.
End Construction.

Lemma malloc_ints_Some h k count a :
  malloc_ints h k count = Some a ->
  avail h k = true /\ 0 <= count /\ length a = Z.to_nat count.
Proof.
  unfold malloc_ints. destruct (avail h k); [|done].
  destruct (Z.leb_spec 0 count); [|done]. simpl.
  intros [= <-]. by rewrite length_fmap, length_seq.
Qed.

Lemma malloc_ints_avail h k count :
  avail h k = true -> 0 <= count ->
  exists a, malloc_ints h k count = Some a /\ length a = Z.to_nat count.
Proof.
  intros Hk Hc. unfold malloc_ints. rewrite Hk.
  destruct (Z.leb_spec 0 count); [|lia]. simpl.
  eexists. split; [done|]. by rewrite length_fmap, length_seq.
Qed.

Lemma allocation_error_exit {A} code w :
  exists w', allocation_error (A := A) code w = (Exit EXIT_FAILURE, w') /\
             stdout w' = stdout w.
Proof.
  unfold allocation_error.
  destruct code as [| p | p];
    repeat first
      [ by eexists
      | match goal with p : positive |- _ => destruct p end ].
Qed.

(** With every allocation granted, construction returns [fresh]. *)
Lemma initialize_board_fresh h n w :
  1 <= n <= MAX_SIZE -> allocates h ->
  initialize_board h n w = (Ok (fresh n), w).
Proof.
  intros Hn Hh. unfold initialize_board.
  destruct (Z.ltb_spec n 1) as [|_]; [lia|].
  rewrite (bind_ok _ _ _ tt w) by done.
  rewrite (Hh 0%nat) by lia. rewrite (bind_ok _ _ _ tt w) by done.
  rewrite double_minus_one by done.
  destruct (malloc_ints_avail h 1 n) as (q & -> & Hq); [apply Hh; lia | lia |].
  rewrite (bind_ok _ _ _ q w) by done.
  destruct (malloc_ints_avail h 2 n) as (c & -> & Hc); [apply Hh; lia | lia |].
  rewrite (bind_ok _ _ _ c w) by done.
  destruct (malloc_ints_avail h 3 (2 * n - 1)) as (u & -> & Hu);
    [apply Hh; lia | lia |].
  rewrite (bind_ok _ _ _ u w) by done.
  destruct (malloc_ints_avail h 4 (2 * n - 1)) as (d & -> & Hd);
    [apply Hh; lia | lia |].
  rewrite (bind_ok _ _ _ d w) by done.
  unfold on_board.
  pose proof (both_loops n q c u d Hn Hq Hc Hu Hd) as Hrun.
  rewrite double_minus_one in Hrun by done. rewrite Hrun.
  by rewrite filling_done.
Qed.

Lemma initialize_board_too_small h n w :
  n < 1 ->
  initialize_board h n w =
    (Exit EXIT_FAILURE,
     {| stdout := stdout w; stderr := (stderr w ++ [msg_size]) ++ [msg_board] |}).
Proof.
  intros Hn. unfold initialize_board.
  destruct (Z.ltb_spec n 1) as [_ |]; [|lia].
  by apply bind_exit.
Qed.

(** A construction that returns went through all five allocations, for a
    size whose doubled value is still an [int]. *)
Lemma initialize_board_Ok h n w b w' :
  1 <= n <= INT_MAX ->
  initialize_board h n w = (Ok b, w') ->
  n <= MAX_SIZE /\ allocates h /\ b = fresh n /\ w' = w.
Proof.
  intros Hn Hrun. pose proof Hrun as Hrun0.
  unfold initialize_board in Hrun.
  apply bind_inv in Hrun as (? & w1 & _ & Hrun).
  apply bind_inv in Hrun as (? & w2 & H0 & Hrun).
  destruct (avail h 0) eqn:A0;
    [| destruct (allocation_error_exit (A := unit) 1 w1) as (? & E & _);
       congruence].
  apply bind_inv in Hrun as (q & w3 & H1 & Hrun).
  destruct (malloc_ints h 1 n) as [q' |] eqn:M1;
    [| destruct (allocation_error_exit (A := list Z) 2 w2) as (? & E & _);
       congruence].
  apply bind_inv in Hrun as (c & w4 & H2 & Hrun).
  destruct (malloc_ints h 2 n) as [c' |] eqn:M2;
    [| destruct (allocation_error_exit (A := list Z) 3 w3) as (? & E & _);
       congruence].
  apply bind_inv in Hrun as (u & w5 & H3 & Hrun).
  destruct (malloc_ints h 3 _) as [u' |] eqn:M3;
    [| destruct (allocation_error_exit (A := list Z) 4 w4) as (? & E & _);
       congruence].
  apply bind_inv in Hrun as (d & w6 & H4 & Hrun).
  destruct (malloc_ints h 4 _) as [d' |] eqn:M4;
    [| destruct (allocation_error_exit (A := list Z) 5 w5) as (? & E & _);
       congruence].
  apply malloc_ints_Some in M1 as (A1 & _ & _), M2 as (A2 & _ & _),
    M3 as (A3 & Hpos & _), M4 as (A4 & _ & _).
  assert (Hmax : n <= MAX_SIZE).
  { destruct (Z_le_gt_dec n MAX_SIZE) as [|Hgt]; [done|].
    pose proof (double_minus_one_negative n). lia. }
  assert (Hh : allocates h).
  { intros k Hk. destruct k as [|[|[|[|[|k]]]]]; try done. lia. }
  rewrite initialize_board_fresh in Hrun0 by (done || lia).
  by injection Hrun0 as <- <-.
Qed.

(** ** Fuel *)

Lemma try_row_mono (again again' : M chess_board unit) row_i b b' :
  (forall b1 b2, again b1 = (Ok tt, b2) -> again' b1 = (Ok tt, b2)) ->
  try_row again row_i b = (Ok tt, b') ->
  try_row again' row_i b = (Ok tt, b').
Proof.
  intros Hmono. unfold try_row. intros Hrun.
  apply bind_inv in Hrun as (free & b1 & Hfree & Hrun).
  rewrite (bind_ok _ _ _ _ _ Hfree).
  destruct (free =? 0); [done|].
  apply bind_inv in Hrun as ([] & b2 & Hset & Hrun).
  rewrite (bind_ok _ _ _ _ _ Hset).
  unfold bind at 1, gets at 1. unfold bind at 1, gets at 1.
  unfold bind at 1, gets at 1 in Hrun. unfold bind at 1, gets at 1 in Hrun.
  destruct (col_j b2 =? n_size b2); [done|].
  apply bind_inv in Hrun as ([] & b3 & Hagain & Hrun).
  by rewrite (bind_ok _ _ _ _ _ (Hmono _ _ Hagain)).
Qed.

Lemma for_loop_mono {S} (cond : Z -> M S bool) (body body' : Z -> M S unit) :
  (forall i s s', body i s = (Ok tt, s') -> body' i s = (Ok tt, s')) ->
  forall trips i s s',
    for_loop trips cond body i s = (Ok tt, s') ->
    for_loop trips cond body' i s = (Ok tt, s').
Proof.
  intros Hmono trips.
  induction trips as [| trips IH]; intros i s s' Hrun; simpl in *.
  - apply bind_inv in Hrun as (go_on & s1 & Hcond & Hrun).
    rewrite (bind_ok _ _ _ _ _ Hcond). by destruct go_on.
  - apply bind_inv in Hrun as (go_on & s1 & Hcond & Hrun).
    rewrite (bind_ok _ _ _ _ _ Hcond). destruct go_on; [|done].
    apply bind_inv in Hrun as ([] & s2 & Hbody & Hrun).
    rewrite (bind_ok _ _ _ _ _ (Hmono _ _ _ Hbody)). by apply IH.
Qed.

(** More fuel does not change what a search returns. *)
Lemma place_next_queen_mono fuel :
  forall fuel' b b', (fuel <= fuel')%nat ->
    place_next_queen fuel b = (Ok tt, b') ->
    place_next_queen fuel' b = (Ok tt, b').
Proof.
  induction fuel as [| fuel IH]; intros fuel' b b' Hle Hrun; [done|].
  destruct fuel' as [| fuel']; [lia|]. simpl in *.
  unfold bind at 1, gets at 1. unfold bind at 1, gets at 1 in Hrun.
  revert Hrun. apply for_loop_mono.
  intros i s s'. apply try_row_mono.
  intros b1 b2. apply IH. lia.
Qed.

(** ** New boards and whole runs *)

Lemma fresh_ok n : 1 <= n <= MAX_SIZE -> board_ok (fresh n).
Proof.
  intros Hn. split; simpl; rewrite ?length_replicate; try lia;
    apply Forall_replicate; by right.
Qed.

Lemma sample_heap_allocates : allocates sample_heap.
Proof. by intros k _. Qed.

(** A search on a new board returns, whatever the fuel above the size. *)
Lemma search_fresh n fuel :
  1 <= n <= MAX_SIZE -> (Z.to_nat n <= fuel)%nat ->
  exists b', place_next_queen fuel (fresh n) = (Ok tt, b') /\
             same_position (fresh n) b'.
Proof.
  intros Hn Hfuel.
  destruct (place_next_queen_post fuel (fresh n)) as [H | [_ H]];
    [by apply fresh_ok | simpl; lia | done | simpl in H; lia].
Qed.

Lemma solve_run h fuel n w p s :
  1 <= n <= MAX_SIZE -> allocates h -> (Z.to_nat n <= fuel)%nat ->
  search_counts n = (Ok tt, p, s) ->
  solve h fuel n w = (Ok (p, s), w).
Proof.
  intros Hn Hh Hfuel Hcounts. unfold solve.
  rewrite (bind_ok _ _ _ _ _ (initialize_board_fresh h n w Hn Hh)).
  unfold search_counts in Hcounts.
  destruct (place_next_queen (Z.to_nat n) (fresh n)) as [r b'] eqn:Hrun.
  simpl in Hcounts. injection Hcounts as -> <- <-.
  apply (place_next_queen_mono _ fuel) in Hrun; [|done].
  unfold bind at 1, on_board at 1. by rewrite Hrun.
Qed.

Lemma main_run h fuel argv n w p s :
  (if Z.of_nat (length argv) =? 1 then Some 4
   else atoi <$> argv !! 1%nat) = Some n ->
  1 <= n <= MAX_SIZE -> allocates h -> (Z.to_nat n <= fuel)%nat ->
  search_counts n = (Ok tt, p, s) ->
  main h fuel argv w =
    (Ok EXIT_SUCCESS,
     {| stdout := stdout w ++
          ["The " +:+ pretty n +:+ "-Queens problem " +:+
           "required " +:+ pretty p +:+ " queen placements " +:+
           "to find all " +:+ pretty s +:+ " solutions" +:+ newline];
        stderr := stderr w |}).
Proof.
  intros Hargv Hn Hh Hfuel Hcounts. unfold main.
  assert ((if Z.of_nat (length argv) =? 1
           then initialize_board h 4
           else match argv !! 1%nat with
                | Some arg => initialize_board h (atoi arg)
                | None => raise OutOfBounds
                end) w = (Ok (fresh n), w)) as Hinit.
  { destruct (Z.of_nat (length argv) =? 1).
    - injection Hargv as <-. by apply initialize_board_fresh.
    - destruct (argv !! 1%nat) as [arg|]; [|done].
      injection Hargv as <-. by apply initialize_board_fresh. }
  rewrite (bind_ok _ _ _ _ _ Hinit).
  unfold search_counts in Hcounts.
  destruct (place_next_queen (Z.to_nat n) (fresh n)) as [r b'] eqn:Hrun.
  simpl in Hcounts. injection Hcounts as -> <- <-.
  apply (place_next_queen_mono _ fuel) in Hrun; [|done].
  unfold bind at 1, on_board at 1. rewrite Hrun.
  unfold bind, print_counts, smash_board, fprintf_stdout, modify, ret. simpl.
  destruct (search_fresh n fuel Hn Hfuel) as (b2 & Hrun2 & En & _).
  rewrite Hrun in Hrun2. injection Hrun2 as <-. by rewrite En.
Qed.

Lemma search_counts_table :
  Forall (fun '(n, (p, s)) => search_counts n = (Ok tt, p, s)) counts_table.
Proof. repeat constructor; vm_compute; reflexivity. Qed.

Lemma counts_table_run h fuel w n p s :
  (n, (p, s)) ∈ counts_table -> allocates h -> (Z.to_nat n <= fuel)%nat ->
  solve h fuel n w = (Ok (p, s), w).
Proof.
  intros Hin Hh Hfuel.
  pose proof search_counts_table as Htable.
  rewrite Forall_forall in Htable. specialize (Htable _ Hin). simpl in Htable.
  apply solve_run; try done.
  unfold counts_table in Hin. rewrite !elem_of_cons in Hin.
  rewrite elem_of_nil in Hin. unfold MAX_SIZE.
  destruct Hin as [E|[E|[E|[E|[E|[E|[E|[E|[]]]]]]]]]; injection E as -> _ _; lia.
Qed.

(** ** The number of queens on the board *)

Lemma occupied_le a : (occupied a <= length a)%nat.
Proof. apply length_filter. Qed.

Lemma occupied_free_row a i :
  a !! i = Some 1 -> (occupied a < length a)%nat.
Proof.
  unfold occupied. revert i. induction a as [| x a IH]; intros i Hi; [done|].
  rewrite filter_cons. destruct i as [| i]; simpl in Hi.
  - injection Hi as ->. rewrite decide_False by done.
    pose proof (occupied_le a). unfold occupied in *. simpl. lia.
  - specialize (IH i Hi). destruct (decide (x = 0)); simpl; lia.
Qed.

Lemma occupied_insert a i :
  a !! i = Some 1 -> occupied (<[i := 0]> a) = S (occupied a).
Proof.
  unfold occupied. revert i. induction a as [| x a IH]; intros i Hi; [done|].
  destruct i as [| i]; simpl in Hi.
  - injection Hi as ->. change (<[0%nat := 0]> (1 :: a)) with (0 :: a).
    by rewrite !filter_cons, decide_True, decide_False.
  - change (<[S i := 0]> (x :: a)) with (x :: <[i := 0]> a).
    rewrite !filter_cons. destruct (decide (x = 0)); simpl; by rewrite (IH i).
Qed.

Lemma fresh_inv n : 1 <= n <= MAX_SIZE -> board_inv (fresh n).
Proof.
  intros Hn. split; [by apply fresh_ok|]. simpl. unfold occupied.
  induction (Z.to_nat n) as [| k IH]; [done|].
  simpl. rewrite filter_cons, decide_False by done. exact IH.
Qed.

Lemma placed_inv b row_i :
  board_inv b -> index (column b) row_i = Some 1 ->
  board_inv (placed row_i b).
Proof.
  intros [Hok Hcount] [_ Hc]%index_Some.
  split; [by apply placed_ok|]. simpl. rewrite occupied_insert by done. lia.
Qed.

Lemma same_position_inv b b' : board_inv b -> same_position b b' -> board_inv b'.
Proof.
  intros [Hok Hcount] Hpos. split; [by eapply same_position_ok|].
  destruct Hpos as (_ & -> & -> & _). done.
Qed.

(** On a board of the data model a free row leaves the current column
    inside the board: a full board has no free row. *)
Lemma free_row_in_range b row_i v s :
  board_inv b -> square_is_free row_i b = (Ok v, s) -> v <> 0 ->
  0 <= col_j b < n_size b /\ 0 <= row_i < n_size b /\
  index (column b) row_i = Some 1 /\
  index (diagonal_up b) (n_size b - 1 + (col_j b - row_i)) = Some 1 /\
  index (diagonal_down b) (col_j b + row_i) = Some 1.
Proof.
  intros [Hok Hcount] Hrun Hv.
  unfold square_is_free in Hrun.
  apply bind_inv in Hrun as (c & b1 & Hc & Hrun).
  unfold load in Hc. destruct (index (column b) row_i) as [c' |] eqn:Ec; [|done].
  injection Hc as -> <-.
  assert (Hrow : 0 <= row_i < n_size b).
  { destruct (Z_lt_ge_dec row_i 0) as [Hneg | Hnn].
    - apply index_Some in Ec. lia.
    - destruct (Z_lt_ge_dec row_i (n_size b)) as [|Hge]; [lia|].
      assert (index (column b) row_i = None) as E;
        [| rewrite E in Ec; done].
      apply index_None. destruct Hok. lia. }
  assert (Hcol : 0 <= col_j b <= n_size b).
  { pose proof (occupied_le (column b)). destruct Hok. lia. }
  destruct (decide (col_j b = n_size b)) as [Efull | Hnot].
  - (* a full board: every row is occupied *)
    exfalso. apply index_Some in Ec as [_ Ec].
    assert (Fc : flag c)
      by exact (Forall_lookup_1 _ _ _ _ (ok_column_flags b Hok) Ec).
    unfold bind, gets, load in Hrun. simpl in Hrun.
    destruct (index (diagonal_up b) _) as [u|]; [|done].
    destruct (index (diagonal_down b) _) as [d|]; [|done].
    injection Hrun as <- _.
    destruct Fc as [-> | ->]; [by rewrite Z.land_0_l in Hv|].
    apply occupied_free_row in Ec. destruct Hok. lia.
  - assert (Hj : 0 <= col_j b < n_size b) by lia.
    destruct (square_is_free_run b row_i Hok Hj Hrow)
      as (c1 & u & d & Hc1 & Hu & Hd & Fc & Fu & Fd & Hfree).
    unfold square_is_free in Hfree. rewrite Ec in Hc1. injection Hc1 as <-.
    assert (v = Z.land (Z.land c u) d) as ->.
    { unfold bind, gets, load in Hrun, Hfree. rewrite Ec in Hfree.
      simpl in Hrun, Hfree. congruence. }
    apply land_flags in Hv as (-> & -> & ->); done.
Qed.

(** * The claims *)

(** C1.  For every size of the reference table (1 to 8) a run on a newly
    created board, given fuel for [size] nested calls, returns the
    established number of solutions: 1, 0, 0, 2, 10, 4, 40 and 92. *)
Theorem solution_counts_match_table h fuel w size count :
  (size, count) ∈ reference_table ->
  allocates h -> (Z.to_nat size <= fuel)%nat ->
  exists p, solve h fuel size w = (Ok (p, count), w).
Proof.
  intros Hin Hh Hfuel.
  unfold reference_table in Hin. rewrite !elem_of_cons, elem_of_nil in Hin.
  destruct Hin as [E|[E|[E|[E|[E|[E|[E|[E|[]]]]]]]]]; injection E as -> ->;
    eexists; apply counts_table_run; try done;
    unfold counts_table; rewrite !elem_of_cons; tauto.
Qed.

Lemma solution_counts_match_table_witness :
  (8, 92) ∈ reference_table /\ allocates sample_heap /\
  exists p, solve sample_heap 8 8 io0 = (Ok (p, 92), io0).
Proof.
  assert (Hin : (8, 92) ∈ reference_table).
  { unfold reference_table. do 7 apply list_elem_of_further.
    apply list_elem_of_here. }
  split; [exact Hin|]. split; [exact sample_heap_allocates|].
  apply (solution_counts_match_table sample_heap 8 io0 8 92 Hin
           sample_heap_allocates).
  vm_compute. lia.
Defined.

(** C2.  After the search on a newly created board of any size from 1 on
    has returned, the board is back in its initial position: [col_j] is 0
    and every cell of the column and diagonal arrays is 1 again. *)
Theorem search_restores_board h n w b w' fuel :
  1 <= n <= INT_MAX ->
  initialize_board h n w = (Ok b, w') ->
  (Z.to_nat n <= fuel)%nat ->
  exists b',
    place_next_queen fuel b = (Ok tt, b') /\
    col_j b' = 0 /\
    column b' = replicate (Z.to_nat n) 1 /\
    diagonal_up b' = replicate (Z.to_nat (2 * n - 1)) 1 /\
    diagonal_down b' = replicate (Z.to_nat (2 * n - 1)) 1.
Proof.
  intros Hn Hinit Hfuel.
  apply initialize_board_Ok in Hinit as (Hmax & _ & -> & _); [|done].
  destruct (search_fresh n fuel) as (b' & Hrun & _ & Ej & Ec & Eu & Ed & _);
    [lia | done |].
  exists b'. by repeat split.
Qed.

Lemma search_restores_board_witness :
  exists b',
    place_next_queen 4 (fresh 4) = (Ok tt, b') /\
    col_j b' = 0 /\
    column b' = [1; 1; 1; 1] /\
    diagonal_up b' = [1; 1; 1; 1; 1; 1; 1] /\
    diagonal_down b' = [1; 1; 1; 1; 1; 1; 1].
Proof.
  apply (search_restores_board sample_heap 4 io0 (fresh 4) io0 4).
  - unfold INT_MAX. lia.
  - vm_compute. reflexivity.
  - vm_compute. lia.
Defined.

(** C3.  Construction with size 0 leaves with a failure status and an
    empty standard output, but it writes two messages to the error stream:
    the size message and, through the missing [break], the board
    allocation message. *)
Theorem invalid_size_writes_two_messages h :
  initialize_board h 0 io0 =
    (Exit EXIT_FAILURE, {| stdout := []; stderr := [msg_size; msg_board] |}).
Proof. by rewrite initialize_board_too_small. Qed.

(** C4, as the specification states it, fails: the run for size 4 does not
    print the line with 38 placements. *)
Lemma four_queens_line_is_not_38 :
  stdout (main sample_heap 4 ["n_queens_counter"; "4"] io0).2 <> [line_38].
Proof. vm_compute. intros [=]. Qed.

(** C4, amended.  For input 4 the program returns with status 0, having
    counted 16 placements and 2 solutions, and prints the line
    "The 4-Queens problem required 16 queen placements to find all 2
    solutions". *)
Theorem four_queens_run h fuel prog w :
  allocates h -> (4 <= fuel)%nat ->
  solve h fuel 4 w = (Ok (16, 2), w) /\
  main h fuel [prog; "4"] w =
    (Ok EXIT_SUCCESS,
     {| stdout := stdout w ++ [line_16]; stderr := stderr w |}).
Proof.
  intros Hh Hfuel. split.
  - apply (counts_table_run h fuel w 4 16 2); [| done | simpl; lia].
    unfold counts_table. rewrite !elem_of_cons. tauto.
  - apply (main_run h fuel [prog; "4"] 4 w 16 2);
      first [done | unfold MAX_SIZE; lia | simpl; lia].
Qed.

Lemma four_queens_run_witness :
  solve sample_heap 4 4 io0 = (Ok (16, 2), io0) /\
  main sample_heap 4 ["n_queens_counter"; "4"] io0 =
    (Ok EXIT_SUCCESS, {| stdout := [line_16]; stderr := [] |}).
Proof.
  apply (four_queens_run sample_heap 4 "n_queens_counter" io0).
  - exact sample_heap_allocates.
  - lia.
Defined.

(** C5.  On every board state of the data model and for every row that
    [square_is_free] reports free, [set_queen] followed by [remove_queen]
    gives back [col_j] and the column and diagonal arrays as they were;
    only [placements], one higher, and the row recorded in [queens]
    differ.  [remove_queen] decrements [col_j] first: the diagonal cells it
    frees are those of the decremented column. *)
Theorem remove_queen_undoes_set_queen b row_i v s :
  board_inv b -> square_is_free row_i b = (Ok v, s) -> v <> 0 ->
  exists b1 b2,
    set_queen row_i b = (Ok tt, b1) /\
    remove_queen row_i b1 = (Ok tt, b2) /\
    col_j b2 = col_j b1 - 1 /\
    diagonal_down b2 =
      <[Z.to_nat (col_j b2 + row_i) := 1]> (diagonal_down b1) /\
    diagonal_up b2 =
      <[Z.to_nat (n_size b1 - 1 + (col_j b2 - row_i)) := 1]> (diagonal_up b1) /\
    n_size b2 = n_size b /\
    col_j b2 = col_j b /\
    column b2 = column b /\
    diagonal_up b2 = diagonal_up b /\
    diagonal_down b2 = diagonal_down b /\
    queens b2 = <[Z.to_nat (col_j b) := row_i]> (queens b) /\
    placements b2 = wrap_uint64 (placements b + 1) /\
    solutions b2 = solutions b.
Proof.
  intros Hinv Hfree Hv.
  destruct (free_row_in_range b row_i v s Hinv Hfree Hv)
    as (Hj & Hr & Hc & Hu & Hd).
  pose proof (inv_ok b Hinv) as Hok.
  exists (placed row_i b), (removed row_i (placed row_i b)).
  destruct (removed_placed b row_i (placed row_i b) Hc Hu Hd
              (same_position_refl _)) as (En & Ej & Ec & Eu & Ed & _).
  split; [by apply set_queen_run|].
  split; [apply remove_queen_run; [by apply placed_ok | simpl; lia ..]|].
  by repeat split.
Qed.

Lemma remove_queen_undoes_set_queen_witness :
  exists b1 b2,
    set_queen 1 (fresh 4) = (Ok tt, b1) /\
    remove_queen 1 b1 = (Ok tt, b2) /\
    col_j b2 = col_j b1 - 1 /\
    diagonal_down b2 =
      <[Z.to_nat (col_j b2 + 1) := 1]> (diagonal_down b1) /\
    diagonal_up b2 =
      <[Z.to_nat (n_size b1 - 1 + (col_j b2 - 1)) := 1]> (diagonal_up b1) /\
    n_size b2 = 4 /\
    col_j b2 = 0 /\
    column b2 = [1; 1; 1; 1] /\
    diagonal_up b2 = [1; 1; 1; 1; 1; 1; 1] /\
    diagonal_down b2 = [1; 1; 1; 1; 1; 1; 1] /\
    queens b2 = [1; 0; 0; 0] /\
    placements b2 = 1 /\
    solutions b2 = 0.
Proof.
  apply (remove_queen_undoes_set_queen (fresh 4) 1 1 (fresh 4)).
  - split; [split; simpl; try (unfold MAX_SIZE; lia); flags | reflexivity].
  - vm_compute. reflexivity.
  - lia.
Defined.



(** C7.  The board [initialize_board] returns for a size from 1 on has a
    column array of [size] cells and diagonal arrays of [2 * size - 1]
    cells, and the search on it never reads or writes a cell outside them,
    whatever the fuel; with fuel for [size] nested calls it returns. *)
Theorem search_stays_in_bounds h n w b w' fuel :
  1 <= n <= INT_MAX ->
  initialize_board h n w = (Ok b, w') ->
  Z.of_nat (length (column b)) = n /\
  Z.of_nat (length (diagonal_up b)) = 2 * n - 1 /\
  Z.of_nat (length (diagonal_down b)) = 2 * n - 1 /\
  (place_next_queen fuel b).1 <> Fault OutOfBounds /\
  ((Z.to_nat n <= fuel)%nat -> (place_next_queen fuel b).1 = Ok tt).
Proof.
  intros Hn Hinit.
  apply initialize_board_Ok in Hinit as (Hmax & _ & -> & _); [|done].
  assert (Hok : board_ok (fresh n)) by (apply fresh_ok; lia).
  split; [apply (ok_column _ Hok)|].
  split; [apply (ok_up _ Hok)|].
  split; [apply (ok_down _ Hok)|].
  destruct (place_next_queen_post fuel (fresh n))
    as [(b' & -> & _) | [Hfault Hfuel]]; [done | simpl; lia | done |].
  rewrite Hfault. split; [done|]. simpl in Hfuel. lia.
Qed.

Lemma search_stays_in_bounds_witness :
  Z.of_nat (length (column (fresh 5))) = 5 /\
  Z.of_nat (length (diagonal_up (fresh 5))) = 2 * 5 - 1 /\
  Z.of_nat (length (diagonal_down (fresh 5))) = 2 * 5 - 1 /\
  (place_next_queen 5 (fresh 5)).1 <> Fault OutOfBounds /\
  ((Z.to_nat 5 <= 5)%nat -> (place_next_queen 5 (fresh 5)).1 = Ok tt).
Proof.
  apply (search_stays_in_bounds sample_heap 5 io0 (fresh 5) io0 5).
  - unfold INT_MAX. lia.
  - vm_compute. reflexivity.
Defined.

(** The sizes of the table satisfy the bound of the specification between
    the two counters: placements are at least solutions times size. *)
Lemma placements_bound_on_table n p s :
  (n, (p, s)) ∈ counts_table -> p >= s * n.
Proof.
  unfold counts_table. rewrite !elem_of_cons, elem_of_nil.
  intros [E|[E|[E|[E|[E|[E|[E|[E|[]]]]]]]]]; injection E as -> -> ->; lia.
Qed.

(** Two runs that return, return the same counts. *)
Lemma solve_agree n h1 h2 f1 f2 w1 w2 r1 r2 w1' w2' :
  1 <= n <= INT_MAX ->
  solve h1 f1 n w1 = (Ok r1, w1') ->
  solve h2 f2 n w2 = (Ok r2, w2') ->
  r1 = r2.
Proof.
  intros Hn Hrun1 Hrun2. unfold solve in *.
  apply bind_inv in Hrun1 as (b1 & ? & Hinit1 & Hrun1).
  apply bind_inv in Hrun2 as (b2 & ? & Hinit2 & Hrun2).
  apply initialize_board_Ok in Hinit1 as (_ & _ & -> & ->); [|done].
  apply initialize_board_Ok in Hinit2 as (_ & _ & -> & ->); [|done].
  apply bind_inv in Hrun1 as (b1 & ? & Hsearch1 & Hrun1).
  apply bind_inv in Hrun2 as (b2 & ? & Hsearch2 & Hrun2).
  unfold on_board in Hsearch1, Hsearch2.
  destruct (place_next_queen f1 (fresh n)) as [[[] | |] b1'] eqn:E1; try done.
  destruct (place_next_queen f2 (fresh n)) as [[[] | |] b2'] eqn:E2; try done.
  apply (place_next_queen_mono _ (f1 `max` f2)) in E1; [|lia].
  apply (place_next_queen_mono _ (f1 `max` f2)) in E2; [|lia].
  injection Hsearch1 as <- <-. injection Hsearch2 as <- <-.
  unfold bind, smash_board, ret in Hrun1, Hrun2.
  injection Hrun1 as <- _. injection Hrun2 as <- _. congruence.
Qed.

(** C9.  [solve] is deterministic: when one run for a size from 1 on has
    returned a pair of counts, every run for that size returns the same
    pair, whatever the allocator hands out and whatever the fuel, provided
    the allocations succeed and the fuel covers [size] nested calls. *)
Theorem solve_deterministic n h1 h2 f1 f2 w1 w2 r1 w1' :
  1 <= n <= INT_MAX ->
  solve h1 f1 n w1 = (Ok r1, w1') ->
  allocates h2 -> (Z.to_nat n <= f2)%nat ->
  solve h2 f2 n w2 = (Ok r1, w2).
Proof.
  intros Hn Hrun1 Hh2 Hf2.
  assert (Hmax : n <= MAX_SIZE).
  { unfold solve in Hrun1.
    apply bind_inv in Hrun1 as (b1 & ? & Hinit1 & _).
    by apply initialize_board_Ok in Hinit1 as (? & _). }
  destruct (search_fresh n f2) as (b2 & Hsearch & _); [lia | done |].
  assert (Hrun2 : solve h2 f2 n w2 = (Ok (placements b2, solutions b2), w2)).
  { unfold solve.
    rewrite (bind_ok _ _ _ _ _ (initialize_board_fresh h2 n w2 (conj (proj1 Hn) Hmax) Hh2)).
    unfold bind at 1, on_board at 1. by rewrite Hsearch. }
  rewrite Hrun2. by rewrite (solve_agree n h1 h2 f1 f2 w1 w2 _ _ _ _ Hn Hrun1 Hrun2).
Qed.

Lemma solve_deterministic_witness :
  solve {| avail := fun _ => true; junk := fun _ _ => 0 |} 9 6 io0
  = (Ok (152, 4), io0).
Proof.
  apply (solve_deterministic 6 sample_heap _ 6 9 io0 io0 (152, 4) io0).
  - unfold INT_MAX. lia.
  - vm_compute. reflexivity.
  - by intros k _.
  - vm_compute. lia.
Defined.

(** [atoi] yields 0 for an argument that does not start with white space,
    a sign or a digit. *)
Lemma atoi_non_numeric c s :
  is_space c = false -> c <> "+"%char -> c <> "-"%char ->
  digit_of c = None ->
  atoi (String c s) = 0.
Proof.
  intros Hspace Hplus Hminus Hdigit.
  unfold atoi, strtol. simpl. rewrite Hspace.
  assert (digits 0 (String c s) = 0) as Hd by (simpl; by rewrite Hdigit).
  destruct c as [[] [] [] [] [] [] [] []];
    try done; by rewrite Hd.
Qed.

(** C10.  When the argument of the program parses to an integer below 1,
    as every non-numeric argument does, [initialize_board] rejects it:
    the process leaves with a failure status, the search is not run, and
    nothing is written to standard output. *)
Theorem main_rejects_size_below_one h fuel prog arg w :
  atoi arg < 1 ->
  main h fuel [prog; arg] w =
    (Exit EXIT_FAILURE,
     {| stdout := stdout w;
        stderr := (stderr w ++ [msg_size]) ++ [msg_board] |}).
Proof.
  intros Hsmall. unfold main.
  apply bind_exit. simpl. by apply initialize_board_too_small.
Qed.

Lemma main_rejects_size_below_one_witness :
  atoi "queens" < 1 /\
  main sample_heap 0 ["n_queens_counter"; "queens"] io0 =
    (Exit EXIT_FAILURE,
     {| stdout := []; stderr := [msg_size; msg_board] |}).
Proof.
  split; [vm_compute; reflexivity|].
  apply (main_rejects_size_below_one sample_heap 0 "n_queens_counter" "queens" io0).
  vm_compute. reflexivity.
Defined.

(** * Further properties *)

(** ** Taken cells *)

Lemma lookup_flags_of occ len i :
  0 <= i < len ->
  flags_of occ len !! Z.to_nat i = Some (if bool_decide (i ∈ occ) then 0 else 1).
Proof.
  intros Hi. unfold flags_of. rewrite list_lookup_fmap.
  rewrite lookup_seqZ_lt by lia. simpl. by rewrite Z2Nat.id by lia.
Qed.

Lemma length_flags_of occ len : length (flags_of occ len) = Z.to_nat len.
Proof. unfold flags_of. by rewrite length_fmap, length_seqZ. Qed.

Lemma index_flags_of occ len i :
  0 <= i < len ->
  index (flags_of occ len) i = Some (if bool_decide (i ∈ occ) then 0 else 1).
Proof. intros Hi. apply index_Some. split; [lia|]. by apply lookup_flags_of. Qed.

Lemma flags_of_nil len : flags_of [] len = replicate (Z.to_nat len) 1.
Proof.
  apply list_eq. intros i.
  destruct (decide (Z.of_nat i < len)) as [Hi | Hi].
  - rewrite <- (Nat2Z.id i) at 1. rewrite lookup_flags_of by lia.
    rewrite lookup_replicate_2 by lia. rewrite bool_decide_eq_false_2; [done|].
    apply not_elem_of_nil.
  - rewrite lookup_ge_None_2 by (rewrite length_flags_of; lia).
    by rewrite lookup_ge_None_2 by (rewrite length_replicate; lia).
Qed.

(** Marking one more cell as taken. *)
Lemma insert_flags_of occ len x :
  0 <= x ->
  <[Z.to_nat x := 0]> (flags_of occ len) = flags_of (occ ++ [x]) len.
Proof.
  intros Hx. apply list_eq. intros i.
  destruct (decide (Z.of_nat i < len)) as [Hi | Hi].
  - destruct (decide (i = Z.to_nat x)) as [-> | Hne].
    + rewrite list_lookup_insert_eq by (rewrite length_flags_of; lia).
      rewrite <- (Nat2Z.id (Z.to_nat x)) at 1.
      rewrite lookup_flags_of by lia.
      rewrite bool_decide_eq_true_2; [done|].
      apply elem_of_app. right. apply list_elem_of_singleton. lia.
    + rewrite list_lookup_insert_ne by done.
      rewrite <- (Nat2Z.id i). rewrite !lookup_flags_of by lia.
      assert (Z.of_nat i <> x) by lia.
      rewrite (bool_decide_ext (Z.of_nat i ∈ occ ++ [x]) (Z.of_nat i ∈ occ));
        [done|].
      rewrite elem_of_app, list_elem_of_singleton. tauto.
  - rewrite lookup_ge_None_2 by (rewrite length_insert, length_flags_of; lia).
    by rewrite lookup_ge_None_2 by (rewrite length_flags_of; lia).
Qed.

(** ** Safe rows *)

Lemma diffs_app qs r :
  diffs (qs ++ [r]) = diffs qs ++ [Z.of_nat (length qs) - r].
Proof.
  unfold diffs. rewrite imap_app. simpl. by rewrite Nat.add_0_r.
Qed.

Lemma sums_app qs r :
  sums (qs ++ [r]) = sums qs ++ [Z.of_nat (length qs) + r].
Proof.
  unfold sums. rewrite imap_app. simpl. by rewrite Nat.add_0_r.
Qed.

Lemma safe_spec qs row :
  safe qs row = true <->
  forall c r, qs !! c = Some r ->
    r <> row /\
    row - r <> Z.of_nat (length qs) - Z.of_nat c /\
    r - row <> Z.of_nat (length qs) - Z.of_nat c.
Proof.
  unfold safe. rewrite !andb_true_iff, !bool_decide_eq_true.
  unfold diffs, sums. rewrite !elem_of_lookup_imap, list_elem_of_lookup.
  split.
  - intros [[Hrow Hdiff] Hsum] c r Hc. repeat split.
    + intros ->. apply Hrow. eauto.
    + intros E. apply Hdiff. exists c, r. split; [lia | done].
    + intros E. apply Hsum. exists c, r. split; [lia | done].
  - intros H. repeat split.
    + intros [c Hc]. by destruct (H c row Hc) as [? _].
    + intros (c & r & E & Hc). destruct (H c r Hc) as (_ & ? & _). lia.
    + intros (c & r & E & Hc). destruct (H c r Hc) as (_ & _ & ?). lia.
Qed.

Lemma non_attacking_nil : non_attacking [].
Proof. intros c1 c2 r1 r2 _ H. done. Qed.

Lemma non_attacking_snoc qs row :
  non_attacking (qs ++ [row]) <-> non_attacking qs /\ safe qs row = true.
Proof.
  rewrite safe_spec. split.
  - intros H. split.
    + intros c1 c2 r1 r2 Hlt H1 H2.
      apply (H c1 c2 r1 r2 Hlt); by apply lookup_app_l_Some.
    + intros c r Hc.
      pose proof (lookup_lt_Some _ _ _ Hc) as Hlen.
      destruct (H c (length qs) r row Hlen) as (? & ? & ?).
      * by apply lookup_app_l_Some.
      * by rewrite list_lookup_middle.
      * repeat split; [done | lia | lia].
  - intros [Hqs Hsafe] c1 c2 r1 r2 Hlt H1 H2.
    apply lookup_snoc_Some in H2 as [[Hlen2 H2] | [-> ->]].
    + apply lookup_snoc_Some in H1 as [[Hlen1 H1] | [-> ->]]; [|lia].
      by apply (Hqs c1 c2).
    + apply lookup_snoc_Some in H1 as [[Hlen1 H1] | [-> ->]]; [|lia].
      destruct (Hsafe c1 r1 H1) as (? & ? & ?). repeat split; [done | lia | lia].
Qed.

(** [extends] decides [non_attacking] for the extended placement. *)
Lemma extends_spec ext : forall qs,
  non_attacking qs ->
  extends qs ext = true <-> non_attacking (qs ++ ext).
Proof.
  induction ext as [| r ext IH]; intros qs Hqs; simpl.
  - by rewrite app_nil_r.
  - rewrite andb_true_iff. rewrite (cons_middle r qs ext), app_assoc.
    split.
    + intros [Hsafe Hext]. apply IH; [|done]. by apply non_attacking_snoc.
    + intros H.
      assert (non_attacking (qs ++ [r])) as Hsnoc.
      { intros c1 c2 r1 r2 Hlt H1 H2.
        apply (H c1 c2 r1 r2 Hlt); by apply lookup_app_l_Some. }
      split; [by apply non_attacking_snoc in Hsnoc as [_ ?] | by apply IH].
Qed.

(** [non_attacking] is decidable, by [extends] from the empty board. *)
#[global] Instance non_attacking_dec qs : Decision (non_attacking qs).
Proof.
  refine (cast_if (decide (extends [] qs = true)));
    by rewrite (extends_spec qs [] non_attacking_nil) in *.
Defined.

(** ** Counting placements *)

Lemma length_filter_bind {A B} (P : B -> Prop) `{forall x, Decision (P x)}
    (f : A -> list B) (l : list A) :
  length (filter P (l ≫= f)) = sum_list_with (fun x => length (filter P (f x))) l.
Proof.
  induction l as [| x l IH]; [done|].
  rewrite bind_cons, filter_app, length_app, IH. done.
Qed.

Lemma sum_list_with_add {A} (f g : A -> nat) (l : list A) :
  sum_list_with (fun x => (f x + g x)%nat) l =
  (sum_list_with f l + sum_list_with g l)%nat.
Proof. induction l as [| x l IH]; simpl; lia. Qed.

Lemma sum_list_with_ext {A} (f g : A -> nat) (l : list A) :
  (forall x, f x = g x) -> sum_list_with f l = sum_list_with g l.
Proof. intros E. induction l as [| x l IH]; simpl; [done|]. by rewrite E, IH. Qed.

Lemma length_filter_extends_cons qs r (l : list (list Z)) :
  length (filter (fun ext => extends qs ext) ((fun ext => r :: ext) <$> l)) =
  if safe qs r
  then length (filter (fun ext => extends (qs ++ [r]) ext) l) else O.
Proof.
  induction l as [| ext l IH]; [by destruct (safe qs r)|].
  rewrite fmap_cons, !filter_cons. simpl extends.
  destruct (safe qs r); simpl in *.
  - destruct (extends (qs ++ [r]) ext); simpl; by rewrite IH.
  - done.
Qed.

Lemma completions_O n qs : completions n 0 qs = 1%nat.
Proof. done. Qed.

Lemma completions_S n m qs :
  completions n (S m) qs =
  sum_list_with
    (fun r => if safe qs r then completions n m (qs ++ [r]) else O)
    (seqZ 0 n).
Proof.
  unfold completions. simpl boards. rewrite length_filter_bind.
  apply sum_list_with_ext. intros r. apply length_filter_extends_cons.
Qed.

Lemma partials_S n m qs :
  partials n (S m) qs =
  sum_list_with
    (fun r => if safe qs r then S (partials n m (qs ++ [r])) else O)
    (seqZ 0 n).
Proof.
  induction m as [| m IH].
  - simpl partials. rewrite completions_S.
    apply sum_list_with_ext. intros r. by destruct (safe qs r).
  - change (partials n (S (S m)) qs)
      with (partials n (S m) qs + completions n (S (S m)) qs)%nat.
    rewrite IH, (completions_S n (S m)), <- sum_list_with_add.
    apply sum_list_with_ext. intros r.
    destruct (safe qs r); [|done]. simpl. lia.
Qed.

(** ** Boards that are consistent with their queens *)

Lemma wrap_uint64_add_l x y : wrap_uint64 (wrap_uint64 x + y) = wrap_uint64 (x + y).
Proof. unfold wrap_uint64. by rewrite Zplus_mod_idemp_l. Qed.

Lemma wrap_int_add_l x y : wrap_int (wrap_int x + y) = wrap_int (x + y).
Proof.
  unfold wrap_int.
  replace ((x + 2147483648) mod 4294967296 - 2147483648 + y + 2147483648)
    with ((x + 2147483648) mod 4294967296 + y) by lia.
  rewrite Zplus_mod_idemp_l. do 2 f_equal. lia.
Qed.

Lemma length_placed_queens b :
  board_ok b -> 0 <= col_j b <= n_size b ->
  Z.of_nat (length (placed_queens b)) = col_j b.
Proof.
  intros Hok Hj. unfold placed_queens.
  rewrite length_take_le; [lia|]. destruct Hok. lia.
Qed.

Lemma fresh_consistent n : 1 <= n <= MAX_SIZE -> consistent (fresh n).
Proof.
  intros Hn. split; try (by rewrite flags_of_nil).
  - by apply fresh_ok.
  - simpl. lia.
  - apply non_attacking_nil.
Qed.

Lemma elem_of_shifted (k x : Z) (l : list Z) :
  k + x ∈ (fun y => k + y) <$> l <-> x ∈ l.
Proof.
  rewrite list_elem_of_fmap. split.
  - intros (y & E & Hy). by replace x with y by lia.
  - intros Hx. by exists x.
Qed.

(** On a consistent board [square_is_free] answers whether the row is
    safe from the queens on the board. *)
Lemma square_is_free_safe b row_i :
  consistent b -> col_j b < n_size b -> 0 <= row_i < n_size b ->
  exists v,
    square_is_free row_i b = (Ok v, b) /\
    (v <> 0 <-> safe (placed_queens b) row_i = true) /\
    (v <> 0 ->
     index (column b) row_i = Some 1 /\
     index (diagonal_up b) (n_size b - 1 + (col_j b - row_i)) = Some 1 /\
     index (diagonal_down b) (col_j b + row_i) = Some 1).
Proof.
  intros [Hok Hj Hsafe Hc Hu Hd] Hlt Hr.
  pose proof (length_placed_queens b Hok Hj) as Hlen.
  destruct (square_is_free_run b row_i Hok (conj (proj1 Hj) Hlt) Hr)
    as (c & u & d & Ec & Eu & Ed & Fc & Fu & Fd & Hrun).
  exists (Z.land (Z.land c u) d). split; [done|].
  rewrite land_flags by done.
  pose proof (ok_size b Hok) as Hn.
  rewrite Hc, index_flags_of in Ec by lia.
  rewrite Hu, index_flags_of in Eu by lia.
  rewrite Hd, index_flags_of in Ed by lia.
  injection Ec as <-. injection Eu as <-. injection Ed as <-.
  split.
  - unfold safe. rewrite !andb_true_iff, !bool_decide_eq_true, Hlen.
    rewrite <- (elem_of_shifted (n_size b - 1) (col_j b - row_i)).
    repeat case_bool_decide; split; try done; try tauto;
      intros (? & ? & ?); done || tauto.
  - intros (E1 & E2 & E3). rewrite Hc, Hu, Hd, !index_flags_of by lia.
    by rewrite E1, E2, E3.
Qed.

Lemma placed_queens_placed b row_i :
  board_ok b -> 0 <= col_j b < n_size b ->
  placed_queens (placed row_i b) = placed_queens b ++ [row_i].
Proof.
  intros Hok Hj. unfold placed_queens. simpl.
  replace (Z.to_nat (col_j b + 1)) with (S (Z.to_nat (col_j b))) by lia.
  erewrite take_S_r;
    [| apply list_lookup_insert_eq; destruct Hok; lia].
  by rewrite take_insert_ge.
Qed.

Lemma placed_consistent b row_i :
  consistent b -> col_j b < n_size b -> 0 <= row_i < n_size b ->
  safe (placed_queens b) row_i = true ->
  consistent (placed row_i b).
Proof.
  intros [Hok Hj Hsafe Hc Hu Hd] Hlt Hr Hrow.
  pose proof (length_placed_queens b Hok Hj) as Hlen.
  assert (Hq : placed_queens (placed row_i b) = placed_queens b ++ [row_i])
    by (apply placed_queens_placed; [done | lia]).
  split; rewrite ?Hq.
  - by apply placed_ok.
  - simpl. lia.
  - by apply non_attacking_snoc.
  - simpl. rewrite Hc. apply insert_flags_of. lia.
  - simpl. rewrite Hu, insert_flags_of by lia.
    rewrite diffs_app, fmap_app, Hlen. done.
  - simpl. rewrite Hd, insert_flags_of by lia.
    by rewrite sums_app, Hlen.
Qed.

Lemma consistent_same_position b b' :
  consistent b -> same_position b b' ->
  placed_queens b' = placed_queens b -> consistent b'.
Proof.
  intros [Hok Hj Hsafe Hc Hu Hd] Hpos Hq.
  pose proof Hpos as (En & Ej & Ec & Eu & Ed & _).
  split; rewrite ?Hq, ?En, ?Ej, ?Ec, ?Eu, ?Ed; try done.
  by eapply same_position_ok.
Qed.

Lemma wrap_uint64_range z : 0 <= wrap_uint64 z < 18446744073709551616.
Proof. unfold wrap_uint64. by apply Z.mod_pos_bound. Qed.

Lemma wrap_int_bounds z : -2147483648 <= wrap_int z <= INT_MAX.
Proof.
  unfold wrap_int, INT_MAX.
  pose proof (Z.mod_pos_bound (z + 2147483648) 4294967296 eq_refl). lia.
Qed.

Lemma counted_refl b : counters_ok b -> counted b b 0 0.
Proof.
  intros [Hp Hs]. repeat split; simpl; rewrite Z.add_0_r.
  - unfold wrap_uint64. by rewrite Z.mod_small.
  - by rewrite wrap_int_small.
Qed.

Lemma counted_counters_ok b b' p s : counted b b' p s -> counters_ok b'.
Proof.
  intros (_ & _ & Hp & Hs). unfold counters_ok. rewrite Hp, Hs.
  split; [apply wrap_uint64_range | apply wrap_int_bounds].
Qed.

Lemma counted_trans b1 b2 b3 p1 s1 p2 s2 :
  counted b1 b2 p1 s1 -> counted b2 b3 p2 s2 ->
  counted b1 b3 (p1 + p2) (s1 + s2).
Proof.
  intros (Hpos1 & Hq1 & Hp1 & Hs1) (Hpos2 & Hq2 & Hp2 & Hs2).
  split; [by eapply same_position_trans|].
  split; [congruence|].
  rewrite Hp2, Hp1, Hs2, Hs1, wrap_uint64_add_l, wrap_int_add_l.
  split; f_equal; lia.
Qed.

(** One row of the loop: what it adds to the counters. *)
Lemma try_row_counted again b row_i (k : nat) :
  consistent b -> counters_ok b ->
  Z.of_nat k = n_size b - col_j b - 1 -> 0 <= row_i < n_size b ->
  (forall b1, consistent b1 -> counters_ok b1 -> n_size b1 = n_size b ->
     col_j b1 = col_j b + 1 -> col_j b1 < n_size b ->
     exists b2, again b1 = (Ok tt, b2) /\
       counted b1 b2 (partials (n_size b) k (placed_queens b1))
         (completions (n_size b) k (placed_queens b1))) ->
  exists b',
    try_row again row_i b = (Ok tt, b') /\
    counted b b'
      (if safe (placed_queens b) row_i
       then S (partials (n_size b) k (placed_queens b ++ [row_i])) else O)
      (if safe (placed_queens b) row_i
       then completions (n_size b) k (placed_queens b ++ [row_i]) else O).
Proof.
  intros Hcons Hcnt Hk Hr Hagain.
  pose proof (cons_ok b Hcons) as Hok. pose proof (cons_col b Hcons) as Hj.
  assert (Hlt : col_j b < n_size b) by lia.
  destruct (square_is_free_safe b row_i Hcons Hlt Hr)
    as (v & Hfree & Hv & Hcells).
  unfold try_row. rewrite (bind_ok _ _ _ _ _ Hfree).
  destruct (Z.eqb_spec v 0) as [-> | Hne].
  { assert (safe (placed_queens b) row_i = false) as ->
      by (destruct (safe (placed_queens b) row_i); [tauto | done]).
    exists b. split; [done | by apply counted_refl]. }
  pose proof (proj1 Hv Hne) as Hsafe. rewrite Hsafe.
  destruct (Hcells Hne) as (Hc & Hu & Hd).
  rewrite (bind_ok _ _ _ _ _
             (set_queen_run b row_i Hok (conj (proj1 Hj) Hlt) Hr)).
  pose proof (placed_consistent b row_i Hcons Hlt Hr Hsafe) as Hcons1.
  pose proof (placed_queens_placed b row_i Hok (conj (proj1 Hj) Hlt)) as Hq1.
  unfold bind at 1, gets at 1. unfold bind at 1, gets at 1.
  change (col_j (placed row_i b)) with (col_j b + 1).
  change (n_size (placed row_i b)) with (n_size b).
  assert (Htake : forall b2,
             placed_queens b2 = placed_queens (placed row_i b) ->
             queens (removed row_i b2) = queens b2 ->
             col_j b2 = col_j b + 1 ->
             placed_queens (removed row_i b2) = placed_queens b).
  { intros b2 E Eq Ej. unfold placed_queens in *. simpl in *.
    rewrite Ej.
    replace (Z.to_nat (col_j b + 1 - 1)) with
      (Z.to_nat (col_j b) `min` Z.to_nat (col_j b + 1))%nat by lia.
    rewrite <- take_take, <- Ej, E, take_take, take_insert_ge by lia.
    f_equal. lia. }
  destruct (Z.eqb_spec (col_j b + 1) (n_size b)) as [Efull | Efull].
  - assert (k = O) as -> by lia.
    unfold bind at 1, modify at 1.
    set (b2 := set_solutions _ _).
    assert (Hpos : same_position (placed row_i b) b2)
      by apply same_position_solutions.
    rewrite remove_queen_run;
      [| by eapply same_position_ok; [apply placed_ok|]
       | simpl; lia | simpl; lia].
    eexists. split; [done|].
    split; [by apply removed_placed|].
    split; [by apply Htake|].
    simpl. split; [f_equal; lia | done].
  - destruct (Hagain (placed row_i b)) as (b2 & Hrun & Hpos & Hq & Hp & Hs);
      try done; simpl; try lia.
    { split; [apply wrap_uint64_range | apply Hcnt]. }
    rewrite (bind_ok _ _ _ _ _ Hrun).
    pose proof Hpos as (En & Ej & _). simpl in En, Ej.
    rewrite remove_queen_run;
      [| by eapply same_position_ok; [apply placed_ok|]
       | rewrite En, Ej; lia | rewrite En; lia].
    eexists. split; [done|].
    split; [by apply removed_placed|].
    split; [by apply Htake|].
    simpl. rewrite Hp, Hs, Hq1. simpl.
    rewrite wrap_uint64_add_l. split; [f_equal; lia | done].
Qed.

Lemma rows_counted again b (k : nat) :
  consistent b -> counters_ok b ->
  Z.of_nat k = n_size b - col_j b - 1 ->
  (forall b1, consistent b1 -> counters_ok b1 -> n_size b1 = n_size b ->
     col_j b1 = col_j b + 1 -> col_j b1 < n_size b ->
     exists b2, again b1 = (Ok tt, b2) /\
       counted b1 b2 (partials (n_size b) k (placed_queens b1))
         (completions (n_size b) k (placed_queens b1))) ->
  forall trips row_i b1 p1 s1,
    counted b b1 p1 s1 -> 0 <= row_i <= n_size b ->
    n_size b - row_i <= Z.of_nat trips ->
    exists b',
      for_loop trips (fun row_i => n <- gets n_size ;; ret (row_i <? n))
        (try_row again) row_i b1 = (Ok tt, b') /\
      counted b b'
        (p1 + sum_list_with
           (fun r => if safe (placed_queens b) r
                     then S (partials (n_size b) k (placed_queens b ++ [r]))
                     else O)
           (seqZ row_i (n_size b - row_i)))
        (s1 + sum_list_with
           (fun r => if safe (placed_queens b) r
                     then completions (n_size b) k (placed_queens b ++ [r])
                     else O)
           (seqZ row_i (n_size b - row_i))).
Proof.
  intros Hcons Hcnt Hk Hagain trips.
  induction trips as [| trips IH]; intros row_i b1 p1 s1 Hb1 Hr Htrips.
  - assert (row_i = n_size b) as -> by lia.
    pose proof Hb1 as ((En & _) & _). simpl. run.
    rewrite En, Z.ltb_irrefl, Z.sub_diag. simpl. rewrite !Nat.add_0_r.
    by exists b1.
  - pose proof Hb1 as (Hpos & Hq & _). pose proof Hpos as (En & Ej & _).
    simpl. unfold bind at 1. unfold bind at 1, gets at 1, ret at 1.
    rewrite En.
    destruct (Z.ltb_spec row_i (n_size b)) as [Hlt | Hge].
    + assert (Hcons1 : consistent b1) by by eapply consistent_same_position.
      destruct (try_row_counted again b1 row_i k) as (b2 & Hrun & Hb2);
        try done; try lia.
      { by eapply counted_counters_ok. }
      { rewrite En, Ej. intros b3 ? ? ? ? ?. by apply Hagain. }
      rewrite (bind_ok _ _ _ _ _ Hrun).
      rewrite int_add_small
        by (pose proof (ok_size b (cons_ok b Hcons));
            unfold MAX_SIZE, INT_MAX in *; lia).
      rewrite En, Hq in Hb2.
      destruct (IH (row_i + 1) b2 _ _ (counted_trans _ _ _ _ _ _ _ Hb1 Hb2))
        as (b' & Hloop & Hb'); [lia | lia |].
      exists b'. split; [done|].
      rewrite (seqZ_cons row_i) by lia. simpl.
      replace (Z.pred (n_size b - row_i)) with (n_size b - (row_i + 1)) by lia.
      unfold Z.succ. by rewrite <- !Nat.add_assoc in Hb'.
    + exists b1. split; [done|].
      rewrite seqZ_nil by lia. simpl. by rewrite !Nat.add_0_r.
Qed.

(** The search adds to the counters the numbers of non-attacking
    extensions of the queens on the board. *)
Lemma place_next_queen_counted fuel :
  forall b (k : nat),
    consistent b -> counters_ok b -> col_j b < n_size b ->
    Z.of_nat k = n_size b - col_j b -> (k <= fuel)%nat ->
    exists b',
      place_next_queen fuel b = (Ok tt, b') /\
      counted b b' (partials (n_size b) k (placed_queens b))
        (completions (n_size b) k (placed_queens b)).
Proof.
  induction fuel as [| fuel IH]; intros b k Hcons Hcnt Hlt Hk Hfuel; [lia|].
  destruct k as [| k]; [lia|].
  simpl place_next_queen. unfold bind at 1, gets at 1.
  destruct (rows_counted (place_next_queen fuel) b k Hcons Hcnt)
    with (trips := Z.to_nat (n_size b)) (row_i := 0) (b1 := b)
         (p1 := O) (s1 := O) as (b' & Hrun & Hb').
  - lia.
  - intros b1 Hcons1 Hcnt1 En Ej Hlt1.
    destruct (IH b1 k) as (b2 & Hrun & Hb2); try done; try lia.
    exists b2. split; [done|]. by rewrite En in Hb2.
  - by apply counted_refl.
  - pose proof (cons_col b Hcons). lia.
  - lia.
  - exists b'. split; [done|].
    rewrite Z.sub_0_r in Hb'. simpl in Hb'.
    by rewrite partials_S, completions_S.
Qed.

(** ** Construction, case by case *)

Lemma malloc_ints_refused h k count :
  avail h k = false \/ count < 0 -> malloc_ints h k count = None.
Proof.
  unfold malloc_ints. intros [-> | Hneg]; [done|].
  destruct (Z.leb_spec 0 count); [lia|]. by rewrite andb_false_r.
Qed.

Lemma allocation_error_run {A} code w :
  1 <= code <= 5 ->
  exists msg,
    allocation_error (A := A) code w =
      (Exit EXIT_FAILURE, {| stdout := stdout w; stderr := stderr w ++ [msg] |}).
Proof.
  intros Hcode.
  assert (code = 1 \/ code = 2 \/ code = 3 \/ code = 4 \/ code = 5)
    as [-> | [-> | [-> | [-> | ->]]]] by lia; by eexists.
Qed.

Lemma initialize_board_cases h n w :
  n <= INT_MAX ->
  (1 <= n <= MAX_SIZE /\ allocates h /\
   initialize_board h n w = (Ok (fresh n), w)) \/
  (exists w' msgs,
     initialize_board h n w = (Exit EXIT_FAILURE, w') /\
     stdout w' = stdout w /\ stderr w' = stderr w ++ msgs /\ msgs <> []).
Proof.
  intros Hint.
  destruct (Z_lt_ge_dec n 1) as [Hsmall | Hn].
  { right. eexists _, [msg_size; msg_board].
    rewrite initialize_board_too_small by done. simpl.
    by rewrite <- app_assoc. }
  assert (Hstep : forall (A : Type) code (k : A -> M io chess_board) w0,
             1 <= code <= 5 ->
             exists w' msgs,
               bind (allocation_error (A := A) code) k w0 = (Exit EXIT_FAILURE, w') /\
               stdout w' = stdout w0 /\ stderr w' = stderr w0 ++ msgs /\ msgs <> []).
  { intros A code k w0 Hcode.
    destruct (allocation_error_run (A := A) code w0 Hcode) as (msg & E).
    eexists _, [msg]. by rewrite (bind_exit _ _ _ _ _ E). }
  assert (Henter : initialize_board h n w =
            ((if avail h 0 then ret tt else allocation_error 1) ;;
             q <- match malloc_ints h 1 n with
                  | Some a => ret a | None => allocation_error 2 end ;;
             c <- match malloc_ints h 2 n with
                  | Some a => ret a | None => allocation_error 3 end ;;
             u <- match malloc_ints h 3 (int_sub (int_mul 2 n) 1) with
                  | Some a => ret a | None => allocation_error 4 end ;;
             d <- match malloc_ints h 4 (int_sub (int_mul 2 n) 1) with
                  | Some a => ret a | None => allocation_error 5 end ;;
             on_board
               (for_loop (Z.to_nat n) (fun i => ret (i <? n))
                  (fun i =>
                     store queens set_queens i 0 ;;
                     store column set_column i 1 ;;
                     store diagonal_up set_diagonal_up i 1 ;;
                     store diagonal_down set_diagonal_down i 1) 0 ;;
                for_loop (Z.to_nat n)
                  (fun i => ret (i <? int_sub (int_mul 2 n) 1))
                  (fun i =>
                     store diagonal_up set_diagonal_up i 1 ;;
                     store diagonal_down set_diagonal_down i 1) n)
               {| n_size := n; queens := q; column := c;
                  diagonal_up := u; diagonal_down := d;
                  col_j := 0; placements := 0; solutions := 0 |}) w).
  { unfold initialize_board.
    destruct (Z.ltb_spec n 1) as [|_]; [lia|].
    by rewrite (bind_ok _ _ _ tt w). }
  assert (Hfail : forall out,
             (exists w' msgs,
                out = (Exit EXIT_FAILURE, w') /\
                stdout w' = stdout w /\ stderr w' = stderr w ++ msgs /\
                msgs <> []) ->
             initialize_board h n w = out ->
             (1 <= n <= MAX_SIZE /\ allocates h /\
              initialize_board h n w = (Ok (fresh n), w)) \/
             (exists w' msgs,
                initialize_board h n w = (Exit EXIT_FAILURE, w') /\
                stdout w' = stdout w /\ stderr w' = stderr w ++ msgs /\
                msgs <> [])).
  { intros out H <-. by right. }
  destruct (avail h 0) eqn:A0;
    [| eapply Hfail; [|exact Henter]; apply Hstep; lia].
  rewrite (bind_ok _ _ _ tt w) in Henter by done.
  destruct (malloc_ints h 1 n) as [q|] eqn:M1;
    [| eapply Hfail; [|exact Henter]; apply Hstep; lia].
  rewrite (bind_ok _ _ _ q w) in Henter by done.
  destruct (malloc_ints h 2 n) as [c|] eqn:M2;
    [| eapply Hfail; [|exact Henter]; apply Hstep; lia].
  rewrite (bind_ok _ _ _ c w) in Henter by done.
  destruct (malloc_ints h 3 (int_sub (int_mul 2 n) 1)) as [u|] eqn:M3;
    [| eapply Hfail; [|exact Henter]; apply Hstep; lia].
  rewrite (bind_ok _ _ _ u w) in Henter by done.
  destruct (malloc_ints h 4 (int_sub (int_mul 2 n) 1)) as [d|] eqn:M4;
    [| eapply Hfail; [|exact Henter]; apply Hstep; lia].
  apply malloc_ints_Some in M1 as (A1 & _ & _), M2 as (A2 & _ & _),
    M3 as (A3 & Hpos & _), M4 as (A4 & _ & _).
  assert (Hmax : n <= MAX_SIZE).
  { destruct (Z_le_gt_dec n MAX_SIZE) as [|Hgt]; [done|].
    pose proof (double_minus_one_negative n). lia. }
  assert (Hh : allocates h).
  { intros k Hk. destruct k as [|[|[|[|[|k]]]]]; try done. lia. }
  left. split; [lia|]. split; [done|].
  apply initialize_board_fresh; [lia | done].
Qed.

Lemma remove_flags_of occ len x :
  0 <= x -> x ∉ occ ->
  <[Z.to_nat x := 1]> (flags_of (occ ++ [x]) len) = flags_of occ len.
Proof.
  intros Hx Hocc. rewrite <- insert_flags_of, list_insert_insert_eq by done.
  apply list_insert_id'. intros Hlen. rewrite length_flags_of in Hlen.
  rewrite lookup_flags_of by lia. by rewrite bool_decide_eq_false_2.
Qed.

Lemma completions_non_attacking n m qs :
  non_attacking qs ->
  completions n m qs =
  length (filter (fun ext => non_attacking (qs ++ ext)) (boards n m)).
Proof.
  intros Hqs. unfold completions. f_equal. apply list_filter_iff.
  intros ext. by rewrite Is_true_true, extends_spec.
Qed.

Lemma partials_sum n m qs :
  partials n m qs = sum_list_with (fun i => completions n i qs) (seq 1 m).
Proof.
  induction m as [| m IH]; [done|].
  rewrite seq_S, sum_list_with_app, <- IH. simpl. lia.
Qed.

Lemma main_entry h argv n w :
  size_argument argv = Some n ->
  (if Z.of_nat (length argv) =? 1
   then initialize_board h 4
   else match argv !! 1%nat with
        | Some arg => initialize_board h (atoi arg)
        | None => raise OutOfBounds
        end) w = initialize_board h n w.
Proof.
  unfold size_argument. destruct (Z.of_nat (length argv) =? 1).
  - by intros [= <-].
  - destruct (argv !! 1%nat) as [arg|]; [by intros [= <-] | done].
Qed.

Lemma size_argument_int argv n : size_argument argv = Some n -> n <= INT_MAX.
Proof.
  unfold size_argument. destruct (Z.of_nat (length argv) =? 1).
  - intros [= <-]. unfold INT_MAX. lia.
  - destruct (argv !! 1%nat) as [arg|]; [|done].
    intros [= <-]. apply wrap_int_bounds.
Qed.

Lemma bind_fault_state {S A B} (m : M S A) (k : A -> M S B) s f :
  m s = (Fault f, s) -> bind m k s = (Fault f, s).
Proof. unfold bind. by intros ->. Qed.

(** ** Properties of the code *)



(** X2.  When the first allocation that fails is the [k]-th (the board,
    then the queens, column, up-diagonal and down-diagonal arrays),
    [initialize_board] writes the one message of that allocation to the
    error stream, nothing to standard output, and leaves with a failure
    status. *)
Theorem initialize_board_refused h n w k :
  1 <= n <= MAX_SIZE -> (k < 5)%nat ->
  (forall i, (i < k)%nat -> avail h i = true) -> avail h k = false ->
  initialize_board h n w =
    (Exit EXIT_FAILURE,
     {| stdout := stdout w; stderr := stderr w ++ [allocation_message k] |}).
Proof.
  intros Hn Hk Hbefore Hrefused.
  unfold initialize_board.
  destruct (Z.ltb_spec n 1) as [|_]; [lia|].
  rewrite (bind_ok _ _ _ tt w) by done.
  destruct k as [| k]; [by rewrite Hrefused|].
  rewrite (Hbefore 0%nat), (bind_ok _ _ _ tt w) by (done || lia).
  destruct k as [| k].
  { by rewrite malloc_ints_refused by by left. }
  destruct (malloc_ints_avail h 1 n) as (q & -> & _);
    [apply Hbefore; lia | lia |].
  rewrite (bind_ok _ _ _ q w) by done.
  destruct k as [| k].
  { by rewrite malloc_ints_refused by by left. }
  destruct (malloc_ints_avail h 2 n) as (c & -> & _);
    [apply Hbefore; lia | lia |].
  rewrite (bind_ok _ _ _ c w) by done.
  rewrite double_minus_one by done.
  destruct k as [| k].
  { by rewrite malloc_ints_refused by by left. }
  destruct (malloc_ints_avail h 3 (2 * n - 1)) as (u & -> & _);
    [apply Hbefore; lia | lia |].
  rewrite (bind_ok _ _ _ u w) by done.
  destruct k as [| k]; [|lia].
  by rewrite malloc_ints_refused by by left.
Qed.

Lemma initialize_board_refused_witness :
  initialize_board
    {| avail := fun k => negb (Nat.eqb k 2); junk := fun _ _ => 0 |} 6 io0 =
    (Exit EXIT_FAILURE, {| stdout := []; stderr := [msg_column] |}).
Proof.
  apply (initialize_board_refused _ 6 io0 2).
  - unfold MAX_SIZE. lia.
  - lia.
  - intros [| [| i]] Hi; [reflexivity | reflexivity | lia].
  - reflexivity.
Defined.



(** X4.  [set_queen] at a row that no queen on the board attacks keeps the
    conflict arrays consistent with the queens: the board it leaves is
    consistent, with the new queen added after the others. *)
Theorem set_queen_keeps_consistent b row_i :
  consistent b -> col_j b < n_size b -> 0 <= row_i < n_size b ->
  non_attacking (placed_queens b ++ [row_i]) ->
  exists b1,
    set_queen row_i b = (Ok tt, b1) /\
    consistent b1 /\
    placed_queens b1 = placed_queens b ++ [row_i].
Proof.
  intros Hcons Hlt Hr Hsafe.
  pose proof (cons_ok b Hcons) as Hok. pose proof (cons_col b Hcons) as Hj.
  apply non_attacking_snoc in Hsafe as [_ Hsafe].
  exists (placed row_i b).
  split; [apply set_queen_run; [done | lia | done]|].
  split; [by apply placed_consistent|].
  apply placed_queens_placed; [done | lia].
Qed.

Lemma set_queen_keeps_consistent_witness :
  exists b1,
    set_queen 1 (fresh 4) = (Ok tt, b1) /\
    consistent b1 /\
    placed_queens b1 = placed_queens (fresh 4) ++ [1].
Proof.
  apply (set_queen_keeps_consistent (fresh 4) 1).
  - apply fresh_consistent. unfold MAX_SIZE. lia.
  - simpl. lia.
  - simpl. lia.
  - apply (extends_spec [1] [] non_attacking_nil). reflexivity.
Defined.

(** X5.  [remove_queen], called with the row of the queen placed last,
    takes exactly that queen off a consistent board: the board it leaves
    is consistent with the queens placed before, whatever happened between
    the placement and the removal. *)
Theorem remove_queen_keeps_consistent b qs row_i :
  consistent b -> placed_queens b = qs ++ [row_i] ->
  0 <= row_i < n_size b ->
  exists b',
    remove_queen row_i b = (Ok tt, b') /\
    consistent b' /\
    placed_queens b' = qs.
Proof.
  intros [Hok Hj Hsafe Hc Hu Hd] Hq Hr.
  pose proof (length_placed_queens b Hok Hj) as Hlen.
  rewrite Hq, length_app in Hlen. simpl in Hlen.
  rewrite Hq in Hsafe, Hc, Hu, Hd.
  apply non_attacking_snoc in Hsafe as [Hqs Hsafe].
  pose proof Hsafe as Hcells. unfold safe in Hcells.
  rewrite !andb_true_iff, !bool_decide_eq_true in Hcells.
  destruct Hcells as [[Hrow Hdiff] Hsum].
  pose proof (ok_size b Hok) as Hn.
  assert (Hq' : placed_queens (removed row_i b) = qs).
  { unfold placed_queens in *. simpl.
    replace (Z.to_nat (col_j b - 1))
      with (Z.to_nat (col_j b - 1) `min` Z.to_nat (col_j b))%nat by lia.
    rewrite <- take_take, Hq, take_app_length'; [done | lia]. }
  exists (removed row_i b).
  split; [apply remove_queen_run; [done | lia | done]|].
  split; [|done].
  split; rewrite ?Hq'; simpl.
  - destruct Hok. split; simpl; rewrite ?length_insert; try done;
      apply Forall_insert; try done; by right.
  - lia.
  - done.
  - rewrite Hc. apply remove_flags_of; [lia | done].
  - rewrite Hu, diffs_app, fmap_app. simpl.
    replace (n_size b - 1 + (col_j b - 1 - row_i))
      with (n_size b - 1 + (Z.of_nat (length qs) - row_i)) by lia.
    apply remove_flags_of; [lia|]. by rewrite elem_of_shifted.
  - rewrite Hd, sums_app.
    replace (col_j b - 1 + row_i) with (Z.of_nat (length qs) + row_i) by lia.
    apply remove_flags_of; [lia | done].
Qed.

Lemma remove_queen_keeps_consistent_witness :
  exists b',
    remove_queen 1 (placed 1 (fresh 4)) = (Ok tt, b') /\
    consistent b' /\
    placed_queens b' = [].
Proof.
  apply (remove_queen_keeps_consistent (placed 1 (fresh 4)) [] 1).
  - apply placed_consistent; [| simpl; lia | simpl; lia | reflexivity].
    apply fresh_consistent. unfold MAX_SIZE. lia.
  - reflexivity.
  - simpl. lia.
Defined.

(** X6.  Started on a consistent board with columns left to fill and
    enough fuel, [place_next_queen] returns with the board consistent, in
    the same position and with the same queens recorded left of the
    current column.  It has added to [solutions] the number of ways to
    fill all remaining columns without attack, and to [placements] the
    number of ways to fill the next 1, 2, ... up to all remaining columns
    without attack (both modulo the width of the counter). *)
Theorem place_next_queen_counts_extensions fuel b :
  consistent b -> counters_ok b -> col_j b < n_size b ->
  (Z.to_nat (n_size b - col_j b) <= fuel)%nat ->
  exists b',
    place_next_queen fuel b = (Ok tt, b') /\
    consistent b' /\
    same_position b b' /\
    placed_queens b' = placed_queens b /\
    placements b' =
      wrap_uint64
        (placements b +
         Z.of_nat
           (sum_list_with
              (fun m =>
                 length (filter (fun ext => non_attacking (placed_queens b ++ ext))
                           (boards (n_size b) m)))
              (seq 1 (Z.to_nat (n_size b - col_j b))))) /\
    solutions b' =
      wrap_int
        (solutions b +
         Z.of_nat
           (length (filter (fun ext => non_attacking (placed_queens b ++ ext))
                      (boards (n_size b) (Z.to_nat (n_size b - col_j b)))))).
Proof.
  intros Hcons Hcnt Hlt Hfuel.
  destruct (place_next_queen_counted fuel b (Z.to_nat (n_size b - col_j b)))
    as (b' & Hrun & Hpos & Hq & Hp & Hs); try done; [lia|].
  exists b'. split; [done|].
  split; [by eapply consistent_same_position|].
  split; [done|]. split; [done|].
  pose proof (cons_safe b Hcons) as Hsafe.
  rewrite Hp, Hs, partials_sum, completions_non_attacking by done.
  split; [|done]. do 3 f_equal.
  apply sum_list_with_ext. intros m. by apply completions_non_attacking.
Qed.

Lemma place_next_queen_counts_extensions_witness :
  exists b',
    place_next_queen 3 (placed 1 (fresh 4)) = (Ok tt, b') /\
    consistent b' /\
    same_position (placed 1 (fresh 4)) b' /\
    placed_queens b' = [1] /\
    placements b' = 4 /\
    solutions b' = 1.
Proof.
  apply (place_next_queen_counts_extensions 3 (placed 1 (fresh 4))).
  - apply placed_consistent; [| simpl; lia | simpl; lia | reflexivity].
    apply fresh_consistent. unfold MAX_SIZE. lia.
  - unfold counters_ok.
    change (placements (placed 1 (fresh 4))) with 1.
    change (solutions (placed 1 (fresh 4))) with 0.
    unfold INT_MAX. lia.
  - simpl. lia.
  - vm_compute. lia.
Defined.

(** X7.  [solve] returns as solution count the number of placements of
    [size] queens, one per column, in which no two queens share a row or a
    diagonal, and as placement count the number of such placements of 1,
    2, ... up to [size] queens in the leftmost columns (modulo 2^32 and
    2^64). *)
Theorem solve_counts_non_attacking h fuel n w :
  1 <= n <= MAX_SIZE -> allocates h -> (Z.to_nat n <= fuel)%nat ->
  solve h fuel n w =
    (Ok (wrap_uint64
           (Z.of_nat
              (sum_list_with
                 (fun m => length (filter non_attacking (boards n m)))
                 (seq 1 (Z.to_nat n)))),
         wrap_int
           (Z.of_nat (length (filter non_attacking (boards n (Z.to_nat n)))))),
     w).
Proof.
  intros Hn Hh Hfuel. unfold solve.
  rewrite (bind_ok _ _ _ _ _ (initialize_board_fresh h n w Hn Hh)).
  destruct (place_next_queen_counted fuel (fresh n) (Z.to_nat n))
    as (b' & Hrun & _ & _ & Hp & Hs).
  - by apply fresh_consistent.
  - split; simpl; unfold INT_MAX; lia.
  - simpl. lia.
  - simpl. lia.
  - done.
  - unfold bind at 1, on_board at 1. rewrite Hrun.
    unfold bind, smash_board, ret. simpl in Hp, Hs.
    change (placed_queens (fresh n)) with (@nil Z) in Hp, Hs.
    rewrite Hp, Hs, !Z.add_0_l, partials_sum.
    rewrite (completions_non_attacking n _ [] non_attacking_nil).
    rewrite (sum_list_with_ext _
               (fun m => length (filter non_attacking (boards n m)))); [done|].
    intros m. apply (completions_non_attacking n m [] non_attacking_nil).
Qed.

Lemma solve_counts_non_attacking_witness :
  solve sample_heap 5 5 io0 = (Ok (53, 10), io0).
Proof.
  apply (solve_counts_non_attacking sample_heap 5 5 io0).
  - unfold MAX_SIZE. lia.
  - exact sample_heap_allocates.
  - lia.
Defined.

(** X8.  A run of [main] with at least the program name in [argv] and
    enough fuel ends in one of two ways.  Either it returns
    [EXIT_SUCCESS], having written to standard output exactly the one line
    with the size and the counts of [solve], and nothing to the error
    stream; or it leaves with [EXIT_FAILURE], having written to the error
    stream only.  The size is 4 without an argument and [atoi] of the
    first argument otherwise; further arguments are ignored. *)
Theorem main_outcome h fuel argv n w :
  size_argument argv = Some n -> (Z.to_nat n <= fuel)%nat ->
  (exists p s,
     solve h fuel n w = (Ok (p, s), w) /\
     main h fuel argv w =
       (Ok EXIT_SUCCESS,
        {| stdout := stdout w ++ [result_line n p s]; stderr := stderr w |})) \/
  (exists w' msgs,
     main h fuel argv w = (Exit EXIT_FAILURE, w') /\
     stdout w' = stdout w /\ stderr w' = stderr w ++ msgs /\ msgs <> []).
Proof.
  intros Hargv Hfuel.
  destruct (initialize_board_cases h n w (size_argument_int argv n Hargv))
    as [(Hn & Hh & Hinit) | (w' & msgs & Hinit & Hout & Herr & Hmsgs)].
  - left.
    destruct (search_fresh n (Z.to_nat n) Hn) as (b' & Hrun & _); [done|].
    assert (Hcounts : search_counts n = (Ok tt, placements b', solutions b'))
      by (unfold search_counts; by rewrite Hrun).
    exists (placements b'), (solutions b').
    split; [by apply solve_run|]. by apply main_run.
  - right. exists w', msgs. split; [|done].
    unfold main. apply bind_exit. by rewrite (main_entry h argv n).
Qed.

Lemma main_outcome_witness :
  (exists p s,
     solve sample_heap 6 6 io0 = (Ok (p, s), io0) /\
     main sample_heap 6 ["n_queens_counter"; " 6 queens"; "ignored"] io0 =
       (Ok EXIT_SUCCESS,
        {| stdout := stdout io0 ++ [result_line 6 p s];
           stderr := stderr io0 |})) \/
  (exists w' msgs,
     main sample_heap 6 ["n_queens_counter"; " 6 queens"; "ignored"] io0 =
       (Exit EXIT_FAILURE, w') /\
     stdout w' = stdout io0 /\ stderr w' = stderr io0 ++ msgs /\ msgs <> []).
Proof.
  apply (main_outcome sample_heap 6 ["n_queens_counter"; " 6 queens"; "ignored"]
           6 io0).
  - vm_compute. reflexivity.
  - vm_compute. lia.
Defined.

(** X9.  A full board must not be searched or extended: with [col_j] equal
    to [n_size], [set_queen] writes [queens] one cell past its end for
    every row, and [place_next_queen] reads [diagonal_up] one cell past its
    end at its first row.  The search itself avoids both by testing
    [col_j == n_size] before it recurses. *)
Theorem full_board_is_out_of_bounds fuel b row_i :
  board_ok b -> col_j b = n_size b ->
  set_queen row_i b = (Fault OutOfBounds, b) /\
  place_next_queen (S fuel) b = (Fault OutOfBounds, b).
Proof.
  intros Hok Hfull. pose proof Hok as [Hn Lq Lc Lu Ld _ _ _]. split.
  - unfold set_queen. run.
    assert (update (queens b) (col_j b) row_i = None) as ->; [|done].
    unfold update. destruct (Z.ltb_spec (col_j b) (Z.of_nat (length (queens b))));
      [lia | by rewrite andb_false_r].
  - simpl place_next_queen. unfold bind at 1, gets at 1.
    destruct (Z.to_nat (n_size b)) as [| trips] eqn:Etrips; [lia|].
    simpl for_loop. unfold bind at 1. unfold bind at 1, gets at 1, ret at 1.
    destruct (Z.ltb_spec 0 (n_size b)) as [_ |]; [|lia].
    apply bind_fault_state. unfold try_row. apply bind_fault_state.
    unfold square_is_free. run.
    destruct (index_in_range (column b) 0) as (c & -> & _); [lia|]. simpl.
    rewrite (up_index_small (n_size b)) by lia.
    assert (index (diagonal_up b) (n_size b - 1 + (col_j b - 0)) = None) as ->;
      [|done].
    apply index_None. lia.
Qed.

Lemma full_board_is_out_of_bounds_witness :
  set_queen 0 (placed 2 (placed 0 (placed 3 (placed 1 (fresh 4))))) =
    (Fault OutOfBounds, placed 2 (placed 0 (placed 3 (placed 1 (fresh 4))))) /\
  place_next_queen 1 (placed 2 (placed 0 (placed 3 (placed 1 (fresh 4))))) =
    (Fault OutOfBounds, placed 2 (placed 0 (placed 3 (placed 1 (fresh 4))))).
Proof.
  apply (full_board_is_out_of_bounds 0
           (placed 2 (placed 0 (placed 3 (placed 1 (fresh 4))))) 0).
  - do 4 apply placed_ok. apply fresh_ok. unfold MAX_SIZE. lia.
  - reflexivity.
Defined.
